(** * LEO voice assistant: the session core of [LEO_FINAL.py]

    A shallow embedding of the number parser, the command router, the
    disambiguation dialogue, the output sink and one iteration of the
    wake-word loop, followed by the properties proved about them.

    Text.  A Python [str] is modelled by a Rocq [string]; a character is a
    code point below 256 (the Latin-1 block), and [str.lower], [str.strip]
    and the classes [\d], [\s], [\w] of the [re] module are the ones Python
    uses on those code points.

    Numbers.  A Python [int] is a [Z]; [int(text)] is the conversion of the
    language reference, which raises [ValueError] on a literal of more than
    4300 digits (the limit the interpreter starts with; the source does not
    change it).

    Effects.  Calls that leave the program (clock, console, notification,
    text to speech, microphone, network, file system, operating system) are
    events of an interaction tree [Prog]; the answer type of an event says
    which outcomes are told apart: a call whose exception the source
    catches somewhere, and the opening of the microphone by the loop,
    answer with a value or with an exception; the other calls, which the
    source never guards, are taken to return. *)

From Stdlib Require Import String Ascii List ZArith NArith Bool Lia DecimalString.
Import ListNotations.
Open Scope string_scope.
Open Scope Z_scope.

(** ** Python [str] operations *)

Definition code (c : ascii) : N := N_of_ascii c.

Definition between (lo hi : N) (c : ascii) : bool :=
  ((lo <=? code c) && (code c <=? hi))%N.

(** [str.isspace] and the class [\s]: TAB..CR, FS..US, SPACE, NEL, NBSP. *)
Definition isspace (c : ascii) : bool :=
  between 9 13 c || between 28 32 c || (code c =? 133)%N || (code c =? 160)%N.

(** The class [\d]: the only decimal digits below 256 are [0]..[9]. *)
Definition isdigit (c : ascii) : bool := between 48 57 c.

(** The class [\w]: alphanumeric code points and the underscore. *)
Definition isword (c : ascii) : bool :=
  between 48 57 c || between 65 90 c || (code c =? 95)%N || between 97 122 c
  || (code c =? 170)%N || between 178 179 c || (code c =? 181)%N
  || between 185 186 c || between 188 190 c
  || between 192 214 c || between 216 246 c || between 248 255 c.

(** [str.lower] on one code point: A..Z and the Latin-1 capitals. *)
Definition lower_char (c : ascii) : ascii :=
  if between 65 90 c || between 192 214 c || between 216 222 c
  then ascii_of_N (code c + 32) else c.

Fixpoint lower (s : string) : string :=
  match s with
  | EmptyString => EmptyString
  | String c r => String (lower_char c) (lower r)
  end.

Definition is_empty (s : string) : bool :=
  match s with EmptyString => true | String _ _ => false end.

Fixpoint lstrip_by (sp : ascii -> bool) (s : string) : string :=
  match s with
  | EmptyString => EmptyString
  | String c r => if sp c then lstrip_by sp r else s
  end.

Fixpoint rstrip_by (sp : ascii -> bool) (s : string) : string :=
  match s with
  | EmptyString => EmptyString
  | String c r =>
      let r' := rstrip_by sp r in
      if sp c && is_empty r' then EmptyString else String c r'
  end.

Definition strip_by (sp : ascii -> bool) (s : string) : string :=
  rstrip_by sp (lstrip_by sp s).

(** [str.strip()] *)
Definition strip (s : string) : string := strip_by isspace s.

(** [s.startswith(p)] *)
Definition startswith (p s : string) : bool := String.prefix p s.

(** [sub in s] *)
Fixpoint contains (sub s : string) : bool :=
  startswith sub s ||
  match s with
  | EmptyString => false
  | String _ r => contains sub r
  end.

(** [q in [w1, w2, ...]] *)
Definition in_list (q : string) (ws : list string) : bool :=
  existsb (String.eqb q) ws.

Fixpoint drop (n : nat) (s : string) : string :=
  match n, s with
  | O, _ => s
  | S n', String _ r => drop n' r
  | S _, EmptyString => EmptyString
  end.

Fixpoint take (n : nat) (s : string) : string :=
  match n, s with
  | S n', String c r => String c (take n' r)
  | _, _ => EmptyString
  end.

Fixpoint take_while (p : ascii -> bool) (s : string) : string :=
  match s with
  | String c r => if p c then String c (take_while p r) else EmptyString
  | EmptyString => EmptyString
  end.

(** [s.replace(old, new)] for a non-empty [old]: occurrences are replaced
    from the left and do not overlap; [skip] counts the characters of the
    occurrence just replaced that are still to be passed over. *)
Fixpoint replace_from (old new : string) (skip : nat) (s : string) : string :=
  match s with
  | EmptyString => EmptyString
  | String c r =>
      match skip with
      | S k => replace_from old new k r
      | O =>
          if startswith old s
          then new ++ replace_from old new (String.length old - 1) r
          else String c (replace_from old new O r)
      end
  end.

(** With an empty [old] Python puts [new] before every character and at
    the end. *)
Fixpoint replace_empty (new s : string) : string :=
  match s with
  | EmptyString => new
  | String c r => new ++ String c (replace_empty new r)
  end.

Definition replace (old new s : string) : string :=
  if is_empty old then replace_empty new s else replace_from old new O s.

(** [s.split(sep, 1)[1]], defined when [sep] occurs in [s]: the text after
    the first occurrence. *)
Fixpoint after_first (sep s : string) : option string :=
  if startswith sep s then Some (drop (String.length sep) s)
  else match s with
       | EmptyString => None
       | String _ r => after_first sep r
       end.

Fixpoint repeat_char (c : ascii) (n : nat) : string :=
  match n with O => EmptyString | S k => String c (repeat_char c k) end.

(** [s.ljust(w)] *)
Definition ljust (w : nat) (s : string) : string :=
  s ++ repeat_char " " (w - String.length s).

Definition nl : string := String (ascii_of_N 10) EmptyString.

(** ["\n".join(lines)] *)
Fixpoint join_lines (ls : list string) : string :=
  match ls with
  | [] => EmptyString
  | [l] => l
  | l :: rest => l ++ nl ++ join_lines rest
  end.

(** ** Python [int] *)

Definition digit_val (c : ascii) : Z := Z.of_N (code c) - 48.

(** Value of a digit string read from the left, [acc] being the value of
    the digits already read. *)
Fixpoint decimal_from (acc : Z) (s : string) : Z :=
  match s with
  | EmptyString => acc
  | String c r => decimal_from (10 * acc + digit_val c) r
  end.

Definition decimal (s : string) : Z := decimal_from 0 s.

(** Digits of an integer literal: single underscores are allowed between
    two digits.  [after_digit] tells whether the previous character was a
    digit. *)
Fixpoint literal_digits (after_digit : bool) (acc : Z) (s : string) : option Z :=
  match s with
  | EmptyString => if after_digit then Some acc else None
  | String c r =>
      if isdigit c then literal_digits true (10 * acc + digit_val c) r
      else if (code c =? 95)%N && after_digit
           then match r with
                | String d _ => if isdigit d then literal_digits false acc r else None
                | EmptyString => None
                end
           else None
  end.

(** White space that [int] skips around a literal: [\s] without FS..US. *)
Definition int_space (c : ascii) : bool :=
  isspace c && negb (between 28 31 c).

(** [sys.int_info.default_max_str_digits]: [int] refuses a literal with
    more digits than this (the sign, the underscores and the white space
    around do not count; leading zeros do). *)
Definition int_max_str_digits : nat := 4300.

Fixpoint count_chars (p : ascii -> bool) (s : string) : nat :=
  match s with
  | EmptyString => O
  | String c r => if p c then S (count_chars p r) else count_chars p r
  end.

(** The digits of a literal, once the white space and the sign are gone. *)
Definition int_literal (t : string) : option Z :=
  if (int_max_str_digits <? count_chars isdigit t)%nat then None
  else literal_digits false 0 t.

(** [int(s)]; [None] stands for [ValueError]. *)
Definition py_int (s : string) : option Z :=
  match strip_by int_space s with
  | String "+" r => int_literal r
  | String "-" r => option_map Z.opp (int_literal r)
  | t => int_literal t
  end.

(** ** Regular expressions of the source *)

(** [re.search(r'\d+', s).group(0)]: the first maximal run of digits. *)
Fixpoint search_digits (s : string) : option string :=
  match s with
  | EmptyString => None
  | String c r =>
      if isdigit c then Some (String c (take_while isdigit r))
      else search_digits r
  end.

(** [re.split(r'\W+', s)]: [cur] is the piece being read (reversed into
    place by appending), [in_sep] tells whether the previous character
    belonged to a separator. *)
Fixpoint split_nonword (cur : string) (in_sep : bool) (s : string) : list string :=
  match s with
  | EmptyString => [cur]
  | String c r =>
      if isword c then split_nonword (cur ++ String c EmptyString) false r
      else if in_sep then split_nonword cur true r
           else cur :: split_nonword EmptyString true r
  end.

Definition re_split_nonword (s : string) : list string :=
  split_nonword EmptyString false s.

(** ** Number parser *)

Definition WORD_NUMS : list (string * Z) :=
  [ ("zero", 0); ("oh", 0); ("none", 0); ("no", 0);
    ("one", 1); ("first", 1);
    ("two", 2); ("second", 2); ("to", 2); ("too", 2);
    ("three", 3); ("third", 3);
    ("four", 4); ("for", 4); ("fourth", 4);
    ("five", 5); ("fifth", 5);
    ("six", 6); ("sixth", 6);
    ("seven", 7); ("seventh", 7);
    ("eight", 8); ("ate", 8); ("eighth", 8);
    ("nine", 9); ("ninth", 9);
    ("ten", 10); ("tenth", 10) ].

(** [WORD_NUMS[t]] when [t in WORD_NUMS] (the keys are distinct). *)
Fixpoint dict_get (d : list (string * Z)) (t : string) : option Z :=
  match d with
  | [] => None
  | (k, v) :: rest => if String.eqb t k then Some v else dict_get rest t
  end.

(** The loop [for t in tokens: if t in WORD_NUMS: return WORD_NUMS[t]]
    followed by [return -1]. *)
Fixpoint scan_tokens (tokens : list string) : Z :=
  match tokens with
  | [] => -1
  | t :: rest =>
      match dict_get WORD_NUMS t with
      | Some v => v
      | None => scan_tokens rest
      end
  end.

Definition parse_spoken_number (s : string) : Z :=
  let s := lower (strip s) in
  if is_empty s then -1 else
  let from_digits :=
    match search_digits s with
    | Some run => py_int run
    | None => None
    end in
  match from_digits with
  | Some n => n
  | None => scan_tokens (re_split_nonword s)
  end.

(** [str(n)] for an integer *)
Definition str_of_Z (n : Z) : string := NilZero.string_of_int (Z.to_int n).

(** [m = re.search(r'weather (?:in|of)\s+(.+)', q)]; [m.group(1)].
    [ws_plus_rest] matches [\s+(.+)] at the head of its argument: the white
    space is taken greedily and given back one character at a time, and
    [.] is any character but the line feed. *)
Definition not_lf (c : ascii) : bool := negb (code c =? 10)%N.

Definition dot_plus (s : string) : option string :=
  match s with
  | String c _ => if not_lf c then Some (take_while not_lf s) else None
  | EmptyString => None
  end.

Fixpoint ws_plus_rest (s : string) : option string :=
  match s with
  | String c r =>
      if isspace c then
        match ws_plus_rest r with
        | Some g => Some g
        | None => dot_plus r
        end
      else None
  | EmptyString => None
  end.

Definition weather_city_at (s : string) : option string :=
  if startswith "weather in" s || startswith "weather of" s
  then ws_plus_rest (drop 10 s) else None.

(** [re.search]: the match at the left-most position where there is one. *)
Fixpoint re_search {A : Type} (match_at : string -> option A) (s : string) : option A :=
  match match_at s with
  | Some m => Some m
  | None =>
      match s with
      | EmptyString => None
      | String _ r => re_search match_at r
      end
  end.

Definition search_weather_city (q : string) : option string :=
  re_search weather_city_at q.

(** [\b] between two neighbours, [None] standing for an end of the text. *)
Definition is_w (c : option ascii) : bool :=
  match c with Some a => isword a | None => false end.

Definition word_boundary (prev next : option ascii) : bool :=
  xorb (is_w prev) (is_w next).

Definition head (s : string) : option ascii :=
  match s with String c _ => Some c | EmptyString => None end.

Fixpoint last_char (s : string) : option ascii :=
  match s with
  | EmptyString => None
  | String c EmptyString => Some c
  | String _ r => last_char r
  end.

(** [re.search(r'\b' + w + r'\b', q)] for a literal [w]; [prev] is the
    character before the position tried. *)
Definition bounded_at (w : string) (prev : option ascii) (s : string) : bool :=
  word_boundary prev (head s) && startswith w s
  && word_boundary (last_char w) (head (drop (String.length w) s)).

Fixpoint search_bounded_from (w : string) (prev : option ascii) (s : string) : bool :=
  bounded_at w prev s ||
  match s with
  | EmptyString => false
  | String c r => search_bounded_from w (Some c) r
  end.

Definition search_bounded (w q : string) : bool := search_bounded_from w None q.

(** [m = re.search(pattern, q)]; [m.group(1)], the pattern being an optional
    [set] and white space, then [volume], white space and a captured group
    of one to three digits (each part greedy, the optional part tried
    first). *)
Definition volume_digits_at (s : string) : option string :=
  if startswith "volume" s then
    let d := take 3 (take_while isdigit (lstrip_by isspace (drop 6 s))) in
    if is_empty d then None else Some d
  else None.

Definition abs_volume_at (s : string) : option string :=
  let with_set :=
    if startswith "set" s
    then volume_digits_at (lstrip_by isspace (drop 3 s)) else None in
  match with_set with
  | Some d => Some d
  | None => volume_digits_at s
  end.

Definition search_abs_volume (q : string) : option string :=
  re_search abs_volume_at q.

(** ** Effects *)

Inductive Exn : Type :=
| UnknownValueError
| OtherException (msg : string).

(** [str(e)] *)
Definition exn_str (e : Exn) : string :=
  match e with UnknownValueError => "" | OtherException m => m end.

(** Outcome of a call that the source guards with [try]. *)
Inductive result (A : Type) : Type :=
| Ok (a : A)
| Raised (e : Exn).
Arguments Ok {A} a.
Arguments Raised {A} e.

(** [datetime.datetime.now()] rendered with ['%H:%M:%S'] and ['%B %d, %Y']. *)
Record Clock : Type := { time_str : string; date_str : string }.

(** The seven fields scraped from the weather page. *)
Record WeatherPage : Type :=
  { wob_loc : string; wob_dts : string; wob_dc : string; wob_tm : string;
    wob_pp : string; wob_hm : string; wob_ws : string }.

Inductive AudioData : Type := audio_data (samples : list Z).

Inductive PowerTarget : Type := system_shutdown | system_restart | system_sleep.

(** The calls that leave the program.  [DeepgramTTS]: the request to
    Deepgram, answered by the bytes of a wav file.  [SimpleaudioPlay]:
    decoding those bytes and playing them to the end with simpleaudio.
    [WriteTempWav]: writing them to a temporary file, whose name is the
    answer.  [StartAudioFile]: handing that file to the operating system
    ([os.startfile], [open] or [xdg-open]).  [AcquireMicrophone] and
    [ReleaseMicrophone]: entering and leaving [with microphone as source].
    [NudgeMasterVolume up]: reading the master level and writing it back
    0.05 higher, 1.0 at most, or 0.05 lower, 0.0 at least; that arithmetic
    is in floating point and stays inside the event.  [SetMasterVolume p]:
    writing the level [p/100.0].  [OsOpen]: opening a file that the search
    found. *)
Inductive Event : Type -> Type :=
| Now : Event Clock
| Print (text : string) : Event unit
| Toast (body : string) : Event unit
| DeepgramTTS (text : string) : Event (result string)
| SimpleaudioPlay (audio : string) : Event (result unit)
| WriteTempWav (audio : string) : Event (result string)
| StartAudioFile (tmp : string) : Event (result unit)
| LocalTTS (text : string) : Event unit
| AcquireMicrophone : Event (result unit)
| ReleaseMicrophone : Event unit
| AdjustForAmbientNoise : Event (result unit)
| Listen (timeout : option Z) (phrase_time_limit : Z) : Event (result AudioData)
| TranscribeGoogle (a : AudioData) : Event string
| TranscribeWhisper (a : AudioData) : Event string
| Input (prompt : string) : Event (result string)
| WikipediaSummary (topic : string) : Event (result string)
| WebOpen (url : string) : Event unit
| PlayOnYT (song : string) : Event (result unit)
| GetJoke : Event (result string)
| GoogleWeather (url : string) : Event (result (option WeatherPage))
| GetEndpointVolume : Event bool
| NudgeMasterVolume (up : bool) : Event (result unit)
| SetMute (on : bool) : Event (result unit)
| SetMasterVolume (percent : Z) : Event (result unit)
| SbcGetBrightness : Event (result Z)
| SbcSetBrightness (level : Z) : Event (result unit)
| GrabScreenshot : Event (option string)
| StartThread (target : PowerTarget) : Event unit
| CreateConnection : Event bool
| CpuPercent : Event string
| VirtualMemoryPercent : Event string
| ExpandUserHome : Event string
| Walk (top : string) : Event (list (string * list string))
| OsOpen (path : string) : Event (result unit)
| GeminiSend (prompt : string) : Event (result (option string)).

(** A program: it returns, dies of an exception nobody caught, or performs
    an event and goes on with the answer. *)
Inductive Prog (A : Type) : Type :=
| Ret (a : A)
| Fail (e : Exn)
| Vis {X : Type} (ev : Event X) (k : X -> Prog A).
Arguments Ret {A} a.
Arguments Fail {A} e.
Arguments Vis {A X} ev k.

Fixpoint bind {A B : Type} (p : Prog A) (f : A -> Prog B) : Prog B :=
  match p with
  | Ret a => f a
  | Fail e => Fail e
  | Vis ev k => Vis ev (fun x => bind (k x) f)
  end.

Definition trigger {X : Type} (ev : Event X) : Prog X := Vis ev Ret.

(** [try: p except Exception as e: h e] *)
Fixpoint catch {A : Type} (p : Prog A) (h : Exn -> Prog A) : Prog A :=
  match p with
  | Ret a => Ret a
  | Fail e => h e
  | Vis ev k => Vis ev (fun x => catch (k x) h)
  end.

Notation "x <- p ;; q" := (bind p (fun x => q))
  (at level 61, p at next level, right associativity).
Notation "p ;; q" := (bind p (fun _ => q))
  (at level 61, right associativity).

(** One observed step: an event and the answer it got. *)
Inductive Obs : Type :=
| Observed {X : Type} (ev : Event X) (answer : X).

(** [runs p tr out]: [p] can perform exactly [tr] and end with [out]. *)
Fixpoint runs {A : Type} (p : Prog A) (tr : list Obs) (out : result A) : Prop :=
  match p with
  | Ret a => tr = [] /\ out = Ok a
  | Fail e => tr = [] /\ out = Raised e
  | Vis ev k =>
      exists x tr', tr = Observed ev x :: tr' /\ runs (k x) tr' out
  end.

(** A world answers every event and moves on; [exec] runs a program in it. *)
Fixpoint exec {A W : Type} (answer : forall X, Event X -> W -> X * W)
    (p : Prog A) (w : W) : list Obs * result A * W :=
  match p with
  | Ret a => ([], Ok a, w)
  | Fail e => ([], Raised e, w)
  | Vis ev k =>
      let '(x, w1) := answer _ ev w in
      let '(tr, out, w2) := exec answer (k x) w1 in
      (Observed ev x :: tr, out, w2)
  end.

(** ** Configuration read when the module is loaded *)

Definition USE_WHISPER_STT : bool := false.
Definition USE_DEEPGRAM_TTS : bool := true.
Definition WAKE_WORD : string := "leo".

Record Config : Type :=
  { DG_API_KEY : string;          (* os.getenv("deepgram-api-key", "").strip() *)
    sa : bool;                    (* simpleaudio was imported *)
    sbc : bool;                   (* screen_brightness_control was imported *)
    gemini_client : bool;         (* a Gemini client was created *)
    path_join : string -> string -> string   (* os.path.join *) }.

(** A guarded call: its exception, if any, is raised in the program. *)
Definition attempt {X : Type} (ev : Event (result X)) : Prog X :=
  r <- trigger ev ;;
  match r with
  | Ok x => Ret x
  | Raised e => Fail e
  end.

(** ** Unified output *)

Definition max_len (ss : list string) : nat :=
  fold_right (fun s m => Nat.max (String.length s) m) O ss.

Definition _ascii_table (now : Clock) (answer : string) : string :=
  let oneline := replace nl " " (strip answer) in
  let oneline :=
    if (220 <? String.length oneline)%nat
    then take 217 oneline ++ "..." else oneline in
  let rows := [("Time", time_str now); ("Date", date_str now); ("Answer", oneline)] in
  let key_w := max_len (map fst rows) in
  let val_w := max_len (map snd rows) in
  let top := "+-" ++ repeat_char "-" key_w ++ "-+-" ++ repeat_char "-" val_w ++ "-+" in
  let row := fun kv : string * string =>
    "| " ++ ljust key_w (fst kv) ++ " | " ++ ljust val_w (snd kv) ++ " |" in
  let body := ([top] ++ map row rows ++ [top])%list in
  join_lines body.

(** The notification (title "LEO - Reply"): shown by winotify, else by
    plyer, else dropped; the source swallows every failure. *)
Definition _toast (answer : string) : Prog unit :=
  now <- trigger Now ;;
  trigger (Toast ("Time: " ++ time_str now ++ nl ++ "Date: " ++ date_str now
                  ++ nl ++ nl ++ answer)).

Definition _tts_local_pyttsx3 (text : string) : Prog unit :=
  trigger (LocalTTS text).

(** Playing the bytes Deepgram sent.  With simpleaudio: the wav is decoded
    and played to its end ([SimpleaudioPlay]); an exception there is
    swallowed and the second way is tried.  The second way: the bytes are
    written to a temporary file ([WriteTempWav], which the source does not
    guard) and the file is handed to the program the operating system opens
    wav files with ([StartAudioFile]); an exception there is swallowed as
    well, and nothing tells the caller whether a sound was made. *)
Definition _sa_play_wav_bytes (cfg : Config) (audio_bytes : string) : Prog unit :=
  played <-
    (if sa cfg then
       catch (attempt (SimpleaudioPlay audio_bytes) ;; Ret true)
             (fun _ => Ret false)
     else Ret false) ;;
  if (played : bool) then Ret tt else
  tmp <- attempt (WriteTempWav audio_bytes) ;;
  catch (attempt (StartAudioFile tmp)) (fun _ => Ret tt).

Definition speak_and_print (cfg : Config) (text : string) : Prog unit :=
  if is_empty text then Ret tt else
  now <- trigger Now ;;
  trigger (Print (nl ++ _ascii_table now text ++ nl)) ;;
  _toast text ;;
  spoken <-
    (if USE_DEEPGRAM_TTS && negb (is_empty (DG_API_KEY cfg)) then
       catch
         (audio_bytes <- attempt (DeepgramTTS text) ;;
          _sa_play_wav_bytes cfg audio_bytes ;;
          Ret true)
         (fun e =>
            trigger (Print ("[Deepgram TTS fallback] " ++ exn_str e)) ;;
            Ret false)
     else Ret false) ;;
  if (spoken : bool) then Ret tt else _tts_local_pyttsx3 text.

(** ** Effectors *)

Definition fetch_weather_from_google (city : string) : Prog string :=
  if is_empty (strip city) then Ret "Please specify a city." else
  catch
    (page <- attempt (GoogleWeather
                        ("https://www.google.com/search?q=weather+"
                         ++ replace " " "+" city)) ;;
     match page with
     | None => Ret "Couldn't fetch weather details right now."
     | Some w =>
         Ret ("Weather in " ++ wob_loc w ++ " at " ++ wob_dts w ++ ": "
              ++ wob_dc w ++ ", " ++ wob_tm w
              ++ String (ascii_of_N 176) "C, precipitation " ++ wob_pp w
              ++ ", humidity " ++ wob_hm w ++ ", wind " ++ wob_ws w ++ ".")
     end)
    (fun e => Ret ("Weather fetch error: " ++ exn_str e)).

Definition control_volume (action : string) : Prog string :=
  volume <- trigger GetEndpointVolume ;;
  if negb volume then Ret "Volume control not supported." else
  catch
    ((if (action =? "up")%string then attempt (NudgeMasterVolume true)
      else if (action =? "down")%string then attempt (NudgeMasterVolume false)
      else if (action =? "mute")%string then attempt (SetMute true)
      else if (action =? "unmute")%string then attempt (SetMute false)
      else Ret tt) ;;
     Ret ("Volume " ++ action ++ "."))
    (fun e => Ret ("Volume error: " ++ exn_str e)).

Definition set_volume_absolute (percent : Z) : Prog string :=
  volume <- trigger GetEndpointVolume ;;
  if negb volume then Ret "Volume control not supported." else
  catch
    (let p := Z.max 0 (Z.min 100 percent) in
     attempt (SetMasterVolume p) ;;
     Ret ("Volume set to " ++ str_of_Z p ++ "%."))
    (fun e => Ret ("Volume error: " ++ exn_str e)).

Definition take_screenshot : Prog (option string) := trigger GrabScreenshot.

Definition set_brightness (cfg : Config) (level : Z) : Prog bool :=
  if sbc cfg then
    catch
      (attempt (SbcSetBrightness (Z.max 0 (Z.min 100 level))) ;; Ret true)
      (fun _ => Ret false)
  else Ret false.

Definition is_connected : Prog bool := trigger CreateConnection.

Definition transcribe (audio : AudioData) : Prog string :=
  if USE_WHISPER_STT then trigger (TranscribeWhisper audio)
  else trigger (TranscribeGoogle audio).

Definition fetch_gemini_response (cfg : Config) (prompt : string) : Prog string :=
  if negb (gemini_client cfg)
  then Ret "Gemini not configured. Please ensure your API key is set in GEMINI_API_KEY."
  else
    catch
      (text <- attempt (GeminiSend prompt) ;;
       Ret (strip match text with
                  | Some t => if is_empty t then "(no response)" else t
                  | None => "(no response)"
                  end))
      (fun e => Ret ("Gemini AI error or no response: " ++ exn_str e)).

(** ** File search *)

Definition max_results : nat := 20.

(** The inner loop of [search_files] over the files of one directory; the
    flag tells that the function returned from inside the loop. *)
Fixpoint scan_dir (cfg : Config) (key_lower root : string) (files : list string)
    (matches : list string) : list string * bool :=
  match files with
  | [] => (matches, false)
  | fname :: rest =>
      let matches :=
        if contains key_lower (lower fname)
        then (matches ++ [path_join cfg root fname])%list else matches in
      if (max_results <=? List.length matches)%nat then (matches, true)
      else scan_dir cfg key_lower root rest matches
  end.

Fixpoint walk_loop (cfg : Config) (key_lower : string)
    (walk : list (string * list string)) (matches : list string) : list string :=
  match walk with
  | [] => matches
  | (root, files) :: rest =>
      match scan_dir cfg key_lower root files matches with
      | (matches, true) => matches
      | (matches, false) => walk_loop cfg key_lower rest matches
      end
  end.

(** [search_files(keyword)] with the defaults of the only call: the home
    directory, no extension filter, at most twenty results. *)
Definition search_files (cfg : Config) (keyword : string) : Prog (list string) :=
  search_path <- trigger ExpandUserHome ;;
  walk <- trigger (Walk search_path) ;;
  Ret (walk_loop cfg (lower keyword) walk []).

Definition open_file (file_path : string) : Prog string :=
  catch
    (attempt (OsOpen file_path) ;; Ret ("Opening: " ++ file_path))
    (fun e => Ret ("Failed to open " ++ file_path ++ ": " ++ exn_str e)).

(** ** Disambiguation *)

Definition in_range (sel max_index : Z) : bool :=
  (0 <=? sel) && (sel <=? max_index).

Definition get_user_selection_via_voice_or_input (cfg : Config) (max_index : Z)
  : Prog Z :=
  speak_and_print cfg
    "I found multiple files. Please tell me the number of the file you'd like to open." ;;
  voice <-
    catch
      (attempt AdjustForAmbientNoise ;;
       audio <- attempt (Listen (Some 8) 5) ;;
       said <- transcribe audio ;;
       let sel := parse_spoken_number said in
       if in_range sel max_index then Ret (Some sel) else Ret None)
      (fun _ => Ret None) ;;
  match voice with
  | Some sel => Ret sel
  | None =>
      typed <-
        catch
          (trigger (Print "Enter the number of the file to open (0 to cancel):") ;;
           line <- attempt (Input "Your choice: ") ;;
           sel <- match py_int (strip line) with
                  | Some n => Ret n
                  | None => Fail (OtherException "invalid literal for int()")
                  end ;;
           if in_range sel max_index then Ret (Some sel) else Ret None)
          (fun _ => Ret None) ;;
      match typed with
      | Some sel => Ret sel
      | None => Ret (-1)
      end
  end.

(** ** Command routing *)

Definition file_keywords : list string :=
  [ "find file"; "search file"; "fetch file"; "open file";
    "find"; "search"; "fetch"; "where"; "locate"; "show file"; "get file" ].

(** [enumerate(matches, 1)] rendered as ["{idx}. {path}"] *)
Fixpoint numbered (idx : Z) (paths : list string) : list string :=
  match paths with
  | [] => []
  | path :: rest => (str_of_Z idx ++ ". " ++ path) :: numbered (idx + 1) rest
  end.

(** What [process_command] does with the selection. *)
Definition after_selection (matches : list string) (sel : Z) : Prog string :=
  if sel =? 0 then Ret "Cancelled. No file opened."
  else if (1 <=? sel) && (sel <=? Z.of_nat (List.length matches)) then
    match nth_error matches (Z.to_nat (sel - 1)) with
    | Some chosen_file =>
        open_file chosen_file ;;
        Ret ("Opened: " ++ chosen_file)
    | None => Fail (OtherException "list index out of range")
    end
  else Ret "Invalid choice. No file opened.".

(** What [process_command] does with the result of [search_files]. *)
Definition after_search (cfg : Config) (search_terms : string)
    (matches : list string) : Prog string :=
  match matches with
  | [] => Ret ("No files found matching '" ++ search_terms ++ "'.")
  | [chosen_file] =>
      open_result <- open_file chosen_file ;;
      Ret ("Found and " ++ open_result)
  | _ =>
      let lines := "Files found:" :: numbered 1 matches in
      trigger (Print (nl ++ join_lines lines ++ nl)) ;;
      sel <- get_user_selection_via_voice_or_input cfg
               (Z.of_nat (List.length matches)) ;;
      after_selection matches sel
  end.

(** The search term: every trigger phrase removed, in the order of the
    list, then the white space around what is left. *)
Definition search_terms_of (q : string) : string :=
  strip (fold_left (fun words k => replace k "" words) file_keywords q).

Definition file_search (cfg : Config) (q : string) : Prog string :=
  let search_terms := search_terms_of q in
  if is_empty search_terms || (String.length search_terms <? 2)%nat
  then Ret "Please specify a file name, keyword, or part of it to search."
  else
    matches <- search_files cfg search_terms ;;
    after_search cfg search_terms matches.

Definition wikipedia_lookup (q : string) : Prog string :=
  catch
    (let topic := strip (replace "wikipedia" "" (replace "search wikipedia for" "" q)) in
     attempt (WikipediaSummary topic))
    (fun _ => Ret "Couldn't find that on Wikipedia.").

Definition play_on_youtube (q : string) : Prog string :=
  catch
    (let song := strip (replace "play" "" q) in
     attempt (PlayOnYT song) ;;
     Ret ("Playing " ++ song ++ "."))
    (fun _ => Ret "Couldn't play that right now.").

Definition tell_joke : Prog string :=
  catch (attempt GetJoke) (fun _ => Ret "I couldn't fetch a joke right now.").

Definition weather_report (q : string) : Prog string :=
  let city := match search_weather_city q with
              | Some city => city
              | None => ""
              end in
  fetch_weather_from_google city.

(** [set_volume_absolute(int(m.group(1)))] *)
Definition volume_to (digits : string) : Prog string :=
  match py_int digits with
  | Some percent => set_volume_absolute percent
  | None => Fail (OtherException "invalid literal for int()")
  end.

Definition brightness_up (cfg : Config) : Prog string :=
  if sbc cfg then
    catch
      (current <- attempt SbcGetBrightness ;;
       let new_brightness := Z.min (current + 10) 100 in
       set_brightness cfg new_brightness ;;
       Ret "Brightness increased.")
      (fun _ => Ret "Brightness control failed.")
  else Ret "Brightness control failed.".

Definition brightness_down (cfg : Config) : Prog string :=
  if sbc cfg then
    catch
      (current <- attempt SbcGetBrightness ;;
       let new_brightness := Z.max (current - 10) 0 in
       set_brightness cfg new_brightness ;;
       Ret "Brightness decreased.")
      (fun _ => Ret "Brightness control failed.")
  else Ret "Brightness control failed.".

Definition screenshot : Prog string :=
  path <- take_screenshot ;;
  match path with
  | Some p => Ret ("Screenshot saved to " ++ p)
  | None => Ret "Screenshot failed."
  end.

Definition process_command (cfg : Config) (q : string) : Prog string :=
  let q := strip (lower q) in
  (* Greetings *)
  if in_list q ["hello"; "hi"; "hey"; "good morning"; "good afternoon"; "good evening"]
  then Ret "Hello! How can I assist you?"
  else if in_list q ["how are you"; "how are you doing"; "what's up"; "whats up"]
  then Ret "I'm doing well, thank you! How can I help?"
  else if in_list q ["bye"; "exit"; "quit"; "goodbye"; "stop"]
  then Ret "Goodbye!"
  (* Wikipedia *)
  else if contains "wikipedia" q then wikipedia_lookup q
  (* Web/YT *)
  else if contains "open youtube" q
  then trigger (WebOpen "https://youtube.com") ;; Ret "Opening YouTube."
  else if contains "open google" q
  then trigger (WebOpen "https://google.com") ;; Ret "Opening Google."
  else if startswith "search " q
  then let term := strip (replace "search" "" q) in
       trigger (WebOpen ("https://www.google.com/search?q=" ++ term)) ;;
       Ret ("Searching Google for " ++ term ++ ".")
  else if startswith "play " q then play_on_youtube q
  (* Time/Date *)
  else if contains "time" q
  then now <- trigger Now ;; Ret ("The time is " ++ time_str now ++ ".")
  else if contains "date" q
  then now <- trigger Now ;; Ret ("Today's date is " ++ date_str now ++ ".")
  (* Fun *)
  else if contains "joke" q then tell_joke
  (* Weather *)
  else if contains "weather" q then weather_report q
  (* Volume control *)
  else if search_bounded "volume up" q then control_volume "up"
  else if search_bounded "volume down" q then control_volume "down"
  else if contains "mute" q && negb (contains "unmute" q) then control_volume "mute"
  else if contains "unmute" q then control_volume "unmute"
  else
  match search_abs_volume q with
  | Some digits => volume_to digits
  | None =>
  (* Brightness control *)
  if contains "brightness up" q then brightness_up cfg
  else if contains "brightness down" q then brightness_down cfg
  (* Screenshot *)
  else if contains "screenshot" q then screenshot
  (* System commands *)
  else if contains "shutdown" q
  then trigger (StartThread system_shutdown) ;; Ret "Shutting down."
  else if contains "restart" q
  then trigger (StartThread system_restart) ;; Ret "Restarting."
  else if contains "sleep" q
  then trigger (StartThread system_sleep) ;; Ret "Sleeping now."
  (* Internet check *)
  else if contains "internet" q
  then up <- is_connected ;; Ret (if up : bool then "Connected." else "Not connected.")
  (* System stats *)
  else if contains "cpu" q
  then pct <- trigger CpuPercent ;; Ret ("CPU usage: " ++ pct ++ "%")
  else if contains "ram" q
  then pct <- trigger VirtualMemoryPercent ;; Ret ("RAM usage: " ++ pct ++ "%")
  (* File search commands *)
  else if existsb (fun k => contains k q) file_keywords then file_search cfg q
  (* Default: Gemini AI *)
  else fetch_gemini_response cfg q
  end.

(** The part of [handle_query] that follows [process_command]. *)
Definition emit (cfg : Config) (query response : string) : Prog unit :=
  trigger (Print ("User: " ++ query)) ;;
  trigger (Print ("Leo: " ++ response)) ;;
  speak_and_print cfg response.

Definition handle_query (cfg : Config) (query : string) : Prog unit :=
  response <- process_command cfg query ;;
  emit cfg query response.

(** ** The wake-word loop *)

(** [query = said.split(WAKE_WORD, 1)[1].strip()] *)
Definition candidate_query (said : string) : Prog string :=
  match after_first WAKE_WORD said with
  | Some rest => Ret (strip rest)
  | None => Fail (OtherException "list index out of range")
  end.

(** From [if not query:] to [handle_query(query)]. *)
Definition on_wake (cfg : Config) (query : string) : Prog unit :=
  query <-
    (if is_empty query then
       speak_and_print cfg "Yes?" ;;
       audio2 <- attempt (Listen (Some 6) 8) ;;
       query <- transcribe audio2 ;;
       Ret (strip (lower query))
     else Ret query) ;;
  if negb (is_empty query) then handle_query cfg query else Ret tt.

(** What the loop does with a transcription once it is lower-cased and
    stripped. *)
Definition dispatch (cfg : Config) (said : string) : Prog unit :=
  if is_empty said then Ret tt
  else if contains WAKE_WORD said then
    query <- candidate_query said ;;
    on_wake cfg query
  else Ret tt.

(** The two [except] clauses of the loop. *)
Definition on_listen_error (e : Exn) : Prog unit :=
  match e with
  | UnknownValueError => Ret tt
  | OtherException _ => trigger (Print ("Error listening: " ++ exn_str e))
  end.

(** The [try] statement of one turn of [while True] in
    [listen_for_wake_word]: what a turn does once the microphone is open. *)
Definition listen_iteration (cfg : Config) : Prog unit :=
  catch
    (audio <- attempt (Listen None 5) ;;
     said <- transcribe audio ;;
     dispatch cfg (strip (lower said)))
    on_listen_error.



(** ** The router as an ordered rule table *)

Inductive Rule : Type :=
| Greeting | HowAreYou | Farewell | Wikipedia | OpenYoutube | OpenGoogle
| WebSearch | Play | TimeOfDay | Date | Joke | Weather
| VolumeUp | VolumeDown | Mute | Unmute | VolumeAbsolute
| BrightnessUp | BrightnessDown | Screenshot | Shutdown | Restart | Sleep
| Internet | Cpu | Ram | FileSearch | Fallback.

Definition rules : list Rule :=
  [ Greeting; HowAreYou; Farewell; Wikipedia; OpenYoutube; OpenGoogle;
    WebSearch; Play; TimeOfDay; Date; Joke; Weather;
    VolumeUp; VolumeDown; Mute; Unmute; VolumeAbsolute;
    BrightnessUp; BrightnessDown; Screenshot; Shutdown; Restart; Sleep;
    Internet; Cpu; Ram; FileSearch; Fallback ].

Definition is_some {A : Type} (o : option A) : bool :=
  match o with Some _ => true | None => false end.

(** The condition of each [if] of [process_command]. *)
Definition rule_matches (r : Rule) (q : string) : bool :=
  match r with
  | Greeting => in_list q ["hello"; "hi"; "hey"; "good morning"; "good afternoon"; "good evening"]
  | HowAreYou => in_list q ["how are you"; "how are you doing"; "what's up"; "whats up"]
  | Farewell => in_list q ["bye"; "exit"; "quit"; "goodbye"; "stop"]
  | Wikipedia => contains "wikipedia" q
  | OpenYoutube => contains "open youtube" q
  | OpenGoogle => contains "open google" q
  | WebSearch => startswith "search " q
  | Play => startswith "play " q
  | TimeOfDay => contains "time" q
  | Date => contains "date" q
  | Joke => contains "joke" q
  | Weather => contains "weather" q
  | VolumeUp => search_bounded "volume up" q
  | VolumeDown => search_bounded "volume down" q
  | Mute => contains "mute" q && negb (contains "unmute" q)
  | Unmute => contains "unmute" q
  | VolumeAbsolute => is_some (search_abs_volume q)
  | BrightnessUp => contains "brightness up" q
  | BrightnessDown => contains "brightness down" q
  | Screenshot => contains "screenshot" q
  | Shutdown => contains "shutdown" q
  | Restart => contains "restart" q
  | Sleep => contains "sleep" q
  | Internet => contains "internet" q
  | Cpu => contains "cpu" q
  | Ram => contains "ram" q
  | FileSearch => existsb (fun k => contains k q) file_keywords
  | Fallback => true
  end.

(** The branch each rule runs. *)
Definition rule_body (cfg : Config) (r : Rule) (q : string) : Prog string :=
  match r with
  | Greeting => Ret "Hello! How can I assist you?"
  | HowAreYou => Ret "I'm doing well, thank you! How can I help?"
  | Farewell => Ret "Goodbye!"
  | Wikipedia => wikipedia_lookup q
  | OpenYoutube => trigger (WebOpen "https://youtube.com") ;; Ret "Opening YouTube."
  | OpenGoogle => trigger (WebOpen "https://google.com") ;; Ret "Opening Google."
  | WebSearch =>
      let term := strip (replace "search" "" q) in
      trigger (WebOpen ("https://www.google.com/search?q=" ++ term)) ;;
      Ret ("Searching Google for " ++ term ++ ".")
  | Play => play_on_youtube q
  | TimeOfDay => now <- trigger Now ;; Ret ("The time is " ++ time_str now ++ ".")
  | Date => now <- trigger Now ;; Ret ("Today's date is " ++ date_str now ++ ".")
  | Joke => tell_joke
  | Weather => weather_report q
  | VolumeUp => control_volume "up"
  | VolumeDown => control_volume "down"
  | Mute => control_volume "mute"
  | Unmute => control_volume "unmute"
  | VolumeAbsolute =>
      match search_abs_volume q with
      | Some digits => volume_to digits
      | None => Fail (OtherException "no match")   (* the rule did not match *)
      end
  | BrightnessUp => brightness_up cfg
  | BrightnessDown => brightness_down cfg
  | Screenshot => screenshot
  | Shutdown => trigger (StartThread system_shutdown) ;; Ret "Shutting down."
  | Restart => trigger (StartThread system_restart) ;; Ret "Restarting."
  | Sleep => trigger (StartThread system_sleep) ;; Ret "Sleeping now."
  | Internet => up <- is_connected ;; Ret (if up : bool then "Connected." else "Not connected.")
  | Cpu => pct <- trigger CpuPercent ;; Ret ("CPU usage: " ++ pct ++ "%")
  | Ram => pct <- trigger VirtualMemoryPercent ;; Ret ("RAM usage: " ++ pct ++ "%")
  | FileSearch => file_search cfg q
  | Fallback => fetch_gemini_response cfg q
  end.

(** Position of a rule in the chain. *)
Fixpoint index_in (r : Rule -> bool) (rs : list Rule) : nat :=
  match rs with
  | [] => O
  | r' :: rest => if r r' then O else S (index_in r rest)
  end.

Definition rule_eqb (a b : Rule) : bool :=
  match a, b with
  | Greeting, Greeting | HowAreYou, HowAreYou | Farewell, Farewell
  | Wikipedia, Wikipedia | OpenYoutube, OpenYoutube | OpenGoogle, OpenGoogle
  | WebSearch, WebSearch | Play, Play | TimeOfDay, TimeOfDay | Date, Date
  | Joke, Joke | Weather, Weather | VolumeUp, VolumeUp | VolumeDown, VolumeDown
  | Mute, Mute | Unmute, Unmute | VolumeAbsolute, VolumeAbsolute
  | BrightnessUp, BrightnessUp | BrightnessDown, BrightnessDown
  | Screenshot, Screenshot | Shutdown, Shutdown | Restart, Restart
  | Sleep, Sleep | Internet, Internet | Cpu, Cpu | Ram, Ram
  | FileSearch, FileSearch | Fallback, Fallback => true
  | _, _ => false
  end.

Definition rule_index (r : Rule) : nat := index_in (rule_eqb r) rules.

(** [r] is the rule the chain commits to on [q]: it matches and no rule
    before it does. *)
Definition selected (r : Rule) (q : string) : Prop :=
  rule_matches r q = true /\
  forall r', (rule_index r' < rule_index r)%nat -> rule_matches r' q = false.

(** The first rule of the table that matches. *)
Definition route (q : string) : Rule :=
  match find (fun r => rule_matches r q) rules with
  | Some r => r
  | None => Fallback
  end.

(** ** Vocabulary of the statements *)

Fixpoint all_chars (p : ascii -> bool) (s : string) : bool :=
  match s with
  | EmptyString => true
  | String c r => p c && all_chars p r
  end.

Fixpoint any_char (p : ascii -> bool) (s : string) : bool :=
  match s with
  | EmptyString => false
  | String c r => p c || any_char p r
  end.

(** The text has a decimal digit, hence a run of digits. *)
Definition has_digit (s : string) : bool := any_char isdigit s.

(** The text does not begin with a digit. *)
Definition no_digit_ahead (s : string) : bool :=
  match s with
  | String c _ => negb (isdigit c)
  | EmptyString => true
  end.

(** The text begins with a word character or is at its end. *)
Definition word_ahead (s : string) : bool :=
  match s with
  | String c _ => isword c
  | EmptyString => true
  end.

Definition nonword (c : ascii) : bool := negb (isword c).

(** Splitting on non-word boundaries, as the specification words it: the
    pieces are the maximal runs of word characters, in order, separated by
    non-empty runs of other characters. *)
Inductive pieces : string -> list string -> Prop :=
| pieces_last (w : string) :
    all_chars isword w = true -> pieces w [w]
| pieces_more (w sep rest : string) (toks : list string) :
    all_chars isword w = true ->
    sep <> "" -> all_chars nonword sep = true ->
    word_ahead rest = true ->
    pieces rest toks ->
    pieces (w ++ sep ++ rest) (w :: toks).

(** The text does not begin with a character of the class. *)
Definition stops (p : ascii -> bool) (s : string) : Prop :=
  match s with
  | String c _ => p c = false
  | EmptyString => True
  end.

(** [sep] occurs in [pre ++ sep ++ post] at a position before the end of
    [pre]: such an occurrence ends before the last character of the [sep]
    that follows [pre]. *)
Definition occurs_before (sep pre : string) : bool :=
  contains sep (pre ++ take (String.length sep - 1) sep).

(** Observations of the microphone and of the keyboard. *)
Definition is_listen (o : Obs) : bool :=
  match o with
  | Observed ev _ => match ev with Listen _ _ => true | _ => false end
  end.

Definition is_input (o : Obs) : bool :=
  match o with
  | Observed ev _ => match ev with Input _ => true | _ => false end
  end.

(** A file that the search found was opened. *)
Definition is_os_open (o : Obs) : bool :=
  match o with
  | Observed ev _ => match ev with OsOpen _ => true | _ => false end
  end.

(** Observations of the speaker path: a request to either speech backend,
    or a step of the playback. *)
Definition is_voice (o : Obs) : bool :=
  match o with
  | Observed ev _ =>
      match ev with
      | DeepgramTTS _ | SimpleaudioPlay _ | WriteTempWav _ | StartAudioFile _
      | LocalTTS _ => true
      | _ => false
      end
  end.

(** The local engine was asked to say something. *)
Definition is_local_tts (o : Obs) : bool :=
  match o with
  | Observed ev _ => match ev with LocalTTS _ => true | _ => false end
  end.

Definition count (f : Obs -> bool) (tr : list Obs) : nat :=
  List.length (filter f tr).

(** What [handle_query] and [speak_and_print] show for a response: the two
    console lines, the table and the notification. *)
Definition display_part (query response : string) (c1 c2 : Clock) : list Obs :=
  [ Observed (Print ("User: " ++ query)) tt;
    Observed (Print ("Leo: " ++ response)) tt;
    Observed Now c1;
    Observed (Print (nl ++ _ascii_table c1 response ++ nl)) tt;
    Observed Now c2;
    Observed (Toast ("Time: " ++ time_str c2 ++ nl ++ "Date: " ++ date_str c2
                     ++ nl ++ nl ++ response)) tt ].



(** Every path of the program ends with a value: no exception escapes. *)
Fixpoint returns {A : Type} (p : Prog A) : Prop :=
  match p with
  | Ret _ => True
  | Fail _ => False
  | Vis _ k => forall x, returns (k x)
  end.

(** A configuration for the examples: no Deepgram key, no simpleaudio, no
    brightness module, a Gemini client, POSIX paths. *)
Definition cfg0 : Config :=
  {| DG_API_KEY := ""; sa := false; sbc := false; gemini_client := true;
     path_join := fun root fname => root ++ "/" ++ fname |}.

(** The same with a Deepgram key. *)
Definition cfg_deepgram : Config :=
  {| DG_API_KEY := "key"; sa := false; sbc := false; gemini_client := true;
     path_join := fun root fname => root ++ "/" ++ fname |}.

Definition noon : Clock :=
  {| time_str := "12:00:00"; date_str := "January 01, 2025" |}.

(** A world for the examples: the network is down except for Gemini, which
    answers with a blank text; no program plays a wav file; the microphone
    opens, and times out; the home directory is empty.  It has no state. *)
Definition blank_world (X : Type) (ev : Event X) (w : unit) : X * unit :=
  (match ev in Event X return X with
   | Now => noon
   | Print _ | Toast _ | LocalTTS _ | WebOpen _ | StartThread _ => tt
   | DeepgramTTS _ => Raised (OtherException "offline")
   | SimpleaudioPlay _ | StartAudioFile _ => Raised (OtherException "no player")
   | WriteTempWav _ => Ok "/tmp/leo.wav"
   | AcquireMicrophone | AdjustForAmbientNoise | NudgeMasterVolume _ | SetMute _
   | SetMasterVolume _ | OsOpen _ => Ok tt
   | ReleaseMicrophone => tt
   | Listen _ _ => Raised (OtherException "listening timed out")
   | TranscribeGoogle _ | TranscribeWhisper _ => ""
   | Input _ => Ok "0"
   | WikipediaSummary _ | GetJoke => Raised (OtherException "offline")
   | PlayOnYT _ | SbcSetBrightness _ => Raised (OtherException "unavailable")
   | GoogleWeather _ => Ok None
   | GetEndpointVolume | CreateConnection => false
   | SbcGetBrightness => Raised (OtherException "unavailable")
   | GrabScreenshot => None
   | CpuPercent | VirtualMemoryPercent => "0.0"
   | ExpandUserHome => "/home/leo"
   | Walk _ => []
   | GeminiSend _ => Ok (Some " ")
   end, w).

(** The same world with Deepgram answering: it sends four bytes. *)
Definition deepgram_world (X : Type) (ev : Event X) (w : unit) : X * unit :=
  match ev in Event X0 return Event X0 -> X0 * unit with
  | DeepgramTTS _ => fun _ => (Ok "RIFF", w)
  | _ => fun ev0 => blank_world _ ev0 w
  end ev.

(** ** Vocabulary of the further properties *)

(** The test of [search_files] on one file name. *)
Definition file_matches (keyword fname : string) : bool :=
  contains (lower keyword) (lower fname).

(** Every path a walk offers for a keyword, in the order of the walk. *)
Definition all_matches (cfg : Config) (keyword : string)
    (walk : list (string * list string)) : list string :=
  flat_map
    (fun dir => map (path_join cfg (fst dir))
                    (filter (file_matches keyword) (snd dir)))
    walk.

(** The answer as [_ascii_table] shows it: stripped, on one line, and cut
    to 217 characters and an ellipsis when it has more than 220. *)
Definition answer_cell (answer : string) : string :=
  let oneline := replace nl " " (strip answer) in
  if (220 <? String.length oneline)%nat
  then take 217 oneline ++ "..." else oneline.

(** The width of the second column: the longest of the time, the date and
    the answer shown. *)
Definition cell_width (now : Clock) (answer : string) : nat :=
  Nat.max (String.length (time_str now))
    (Nat.max (String.length (date_str now))
       (String.length (answer_cell answer))).

(** The five lines of the table for cells of width [w]. *)
Definition table_lines (now : Clock) (cell : string) (w : nat) : list string :=
  [ "+--------+-" ++ repeat_char "-" w ++ "-+";
    "| Time   | " ++ ljust w (time_str now) ++ " |";
    "| Date   | " ++ ljust w (date_str now) ++ " |";
    "| Answer | " ++ ljust w cell ++ " |";
    "+--------+-" ++ repeat_char "-" w ++ "-+" ].

(** Every event the program can perform is allowed. *)
Fixpoint within {A : Type} (allowed : forall X, Event X -> bool) (p : Prog A)
  : Prop :=
  match p with
  | Ret _ => True
  | Fail _ => True
  | Vis ev k => allowed _ ev = true /\ forall x, within allowed (k x)
  end.

Definition observed_in (allowed : forall X, Event X -> bool) (o : Obs) : bool :=
  match o with Observed ev _ => allowed _ ev end.

Definition percent_ok (p : Z) : bool := (0 <=? p) && (p <=? 100).

(** The events of the output sink and of the selection dialogue. *)
Definition dialogue_event (X : Type) (ev : Event X) : bool :=
  match ev with
  | Now | Print _ | Toast _ | DeepgramTTS _ | SimpleaudioPlay _
  | WriteTempWav _ | StartAudioFile _ | LocalTTS _
  | AdjustForAmbientNoise | Listen _ _ | TranscribeGoogle _ | Input _ => true
  | _ => false
  end.

(** The events each rule of the router can perform. *)
Definition alphabet (r : Rule) (X : Type) (ev : Event X) : bool :=
  match r, ev with
  | Wikipedia, WikipediaSummary _ => true
  | OpenYoutube, WebOpen url => (url =? "https://youtube.com")%string
  | OpenGoogle, WebOpen url => (url =? "https://google.com")%string
  | WebSearch, WebOpen url => startswith "https://www.google.com/search?q=" url
  | Play, PlayOnYT _ => true
  | TimeOfDay, Now => true
  | Date, Now => true
  | Joke, GetJoke => true
  | Weather, GoogleWeather _ => true
  | VolumeUp, GetEndpointVolume => true
  | VolumeUp, NudgeMasterVolume up => up
  | VolumeDown, GetEndpointVolume => true
  | VolumeDown, NudgeMasterVolume up => negb up
  | Mute, GetEndpointVolume => true
  | Mute, SetMute on => on
  | Unmute, GetEndpointVolume => true
  | Unmute, SetMute on => negb on
  | VolumeAbsolute, GetEndpointVolume => true
  | VolumeAbsolute, SetMasterVolume p => percent_ok p
  | BrightnessUp, SbcGetBrightness => true
  | BrightnessUp, SbcSetBrightness level => percent_ok level
  | BrightnessDown, SbcGetBrightness => true
  | BrightnessDown, SbcSetBrightness level => percent_ok level
  | Screenshot, GrabScreenshot => true
  | Shutdown, StartThread system_shutdown => true
  | Restart, StartThread system_restart => true
  | Sleep, StartThread system_sleep => true
  | Internet, CreateConnection => true
  | Cpu, CpuPercent => true
  | Ram, VirtualMemoryPercent => true
  | FileSearch, ExpandUserHome => true
  | FileSearch, Walk _ => true
  | FileSearch, OsOpen _ => true
  | FileSearch, ev => dialogue_event _ ev
  | Fallback, GeminiSend _ => true
  | _, _ => false
  end.

(** What an observation tells of the machine. *)
Definition started_thread (o : Obs) : option PowerTarget :=
  match o with
  | Observed ev _ => match ev with StartThread t => Some t | _ => None end
  end.

Definition mute_set (o : Obs) : option bool :=
  match o with
  | Observed ev _ => match ev with SetMute on => Some on | _ => None end
  end.

(** The percentage an observation writes: the one [set_volume_absolute]
    gives the endpoint, the one [set_brightness] gives the screen.  (The
    steps of "volume up" and "volume down" write a fraction computed in
    floating point from the level read; they are the event
    [NudgeMasterVolume], which carries no percentage.) *)
Definition percent_written (o : Obs) : option Z :=
  match o with
  | Observed ev _ =>
      match ev with
      | SetMasterVolume p => Some p
      | SbcSetBrightness level => Some level
      | _ => None
      end
  end.

Definition is_walk (o : Obs) : bool :=
  match o with
  | Observed ev _ => match ev with Walk _ => true | _ => false end
  end.

(** The word that asks for a power action, and the answer to it. *)
Definition power_keyword (t : PowerTarget) : string :=
  match t with
  | system_shutdown => "shutdown"
  | system_restart => "restart"
  | system_sleep => "sleep"
  end.

Definition power_message (t : PowerTarget) : string :=
  match t with
  | system_shutdown => "Shutting down."
  | system_restart => "Restarting."
  | system_sleep => "Sleeping now."
  end.

(** [recognize_once(timeout, phrase_time_limit)]: nothing is guarded, an
    exception of the microphone goes to the caller. *)
Definition recognize_once (timeout : option Z) (phrase_time_limit : Z)
  : Prog string :=
  attempt AdjustForAmbientNoise ;;
  audio <- attempt (Listen timeout phrase_time_limit) ;;
  text <- transcribe audio ;;
  Ret (strip (lower text)).

(** The text a transcription gave, the line the keyboard gave. *)
Definition heard (o : Obs) : option string :=
  match o with
  | Observed ev x =>
      match ev in Event X return X -> option string with
      | TranscribeGoogle _ => fun said => Some said
      | TranscribeWhisper _ => fun said => Some said
      | _ => fun _ => None
      end x
  end.

Definition typed (o : Obs) : option string :=
  match o with
  | Observed ev x =>
      match ev in Event X return X -> option string with
      | Input _ => fun r => match r with Ok line => Some line | Raised _ => None end
      | _ => fun _ => None
      end x
  end.

Fixpoint collect (f : Obs -> option string) (tr : list Obs) : list string :=
  match tr with
  | [] => []
  | o :: rest =>
      match f o with
      | Some s => s :: collect f rest
      | None => collect f rest
      end
  end.

(** The address a request of the weather page went to. *)
Definition weather_url (o : Obs) : option string :=
  match o with
  | Observed ev _ => match ev with GoogleWeather url => Some url | _ => None end
  end.

Definition not_space (c : ascii) : bool := negb (Ascii.eqb " " c).

(** The lines of a text, as the console shows them: [text.split("\n")].
    [cur] is the line being read. *)
Fixpoint lines_from (cur : string) (s : string) : list string :=
  match s with
  | EmptyString => [cur]
  | String c r =>
      if not_lf c then lines_from (cur ++ String c EmptyString) r
      else cur :: lines_from EmptyString r
  end.

Definition split_lines (s : string) : list string := lines_from EmptyString s.

(** The world of the examples with a user who types [line]. *)
Definition typing_world (line : string) (X : Type) (ev : Event X) (w : unit)
  : X * unit :=
  match ev in Event X0 return Event X0 -> X0 * unit with
  | Input _ => fun _ => (Ok line, w)
  | _ => fun ev0 => blank_world _ ev0 w
  end ev.
(** * Properties *)

(** ** Characters *)

Ltac by_cases_on_char c :=
  destruct c as [[] [] [] [] [] [] [] []]; vm_compute; try reflexivity;
  try discriminate; auto.

Lemma lower_char_idem (c : ascii) : lower_char (lower_char c) = lower_char c.
Proof. by_cases_on_char c. Qed.

Lemma isspace_lower_char (c : ascii) : isspace (lower_char c) = isspace c.
Proof. by_cases_on_char c. Qed.

Lemma isdigit_lower_char (c : ascii) : isdigit (lower_char c) = isdigit c.
Proof. by_cases_on_char c. Qed.

Lemma isword_lower_char (c : ascii) : isword (lower_char c) = isword c.
Proof. by_cases_on_char c. Qed.

Lemma lower_char_digit (c : ascii) : isdigit c = true -> lower_char c = c.
Proof. by_cases_on_char c. Qed.

Lemma digit_not_space (c : ascii) : isdigit c = true -> isspace c = false.
Proof. by_cases_on_char c. Qed.

Lemma digit_not_int_space (c : ascii) : isdigit c = true -> int_space c = false.
Proof. by_cases_on_char c. Qed.

Lemma digit_val_range (c : ascii) : isdigit c = true -> 0 <= digit_val c <= 9.
Proof. by_cases_on_char c; intros _; split; discriminate. Qed.

(** ** Strings *)

Lemma lower_idem (s : string) : lower (lower s) = lower s.
Proof.
  induction s as [|c r IH]; simpl; [reflexivity|].
  now rewrite lower_char_idem, IH.
Qed.

Lemma is_empty_lower (s : string) : is_empty (lower s) = is_empty s.
Proof. now destruct s. Qed.

Lemma lower_lstrip (s : string) :
  lower (lstrip_by isspace s) = lstrip_by isspace (lower s).
Proof.
  induction s as [|c r IH]; simpl; [reflexivity|].
  rewrite isspace_lower_char. now destruct (isspace c).
Qed.

Lemma lower_rstrip (s : string) :
  lower (rstrip_by isspace s) = rstrip_by isspace (lower s).
Proof.
  induction s as [|c r IH]; simpl; [reflexivity|].
  rewrite isspace_lower_char, <- IH, is_empty_lower.
  now destruct (isspace c && is_empty (rstrip_by isspace r)).
Qed.

Lemma lower_strip (s : string) : lower (strip s) = strip (lower s).
Proof. unfold strip, strip_by. now rewrite lower_rstrip, lower_lstrip. Qed.

Lemma lstrip_idem (sp : ascii -> bool) (s : string) :
  lstrip_by sp (lstrip_by sp s) = lstrip_by sp s.
Proof.
  induction s as [|c r IH]; simpl; [reflexivity|].
  destruct (sp c) eqn:E; [exact IH|]. simpl. now rewrite E.
Qed.

Lemma rstrip_idem (sp : ascii -> bool) (s : string) :
  rstrip_by sp (rstrip_by sp s) = rstrip_by sp s.
Proof.
  induction s as [|c r IH]; simpl; [reflexivity|].
  destruct (sp c && is_empty (rstrip_by sp r)) eqn:E; [reflexivity|].
  simpl. now rewrite IH, E.
Qed.

(** Stripping on the right leaves the first character alone unless the
    whole text goes. *)
Lemma lstrip_rstrip_fixed (sp : ascii -> bool) (s : string) :
  lstrip_by sp s = s -> lstrip_by sp (rstrip_by sp s) = rstrip_by sp s.
Proof.
  destruct s as [|c r]; simpl; [reflexivity|].
  destruct (sp c) eqn:E.
  - intros H. exfalso.
    assert (L : forall t, (String.length (lstrip_by sp t) <= String.length t)%nat).
    { induction t as [|d t IHt]; simpl; [lia|]. destruct (sp d); simpl; lia. }
    specialize (L r). rewrite H in L. simpl in L. lia.
  - intros _. simpl. now rewrite E.
Qed.

Lemma strip_by_idem (sp : ascii -> bool) (s : string) :
  strip_by sp (strip_by sp s) = strip_by sp s.
Proof.
  unfold strip_by.
  rewrite (lstrip_rstrip_fixed sp (lstrip_by sp s) (lstrip_idem sp s)).
  apply rstrip_idem.
Qed.

Lemma normalize_idem (q : string) :
  strip (lower (strip (lower q))) = strip (lower q).
Proof.
  rewrite lower_strip, lower_idem. apply strip_by_idem.
Qed.

(** ** The chain and the table *)

Lemma process_command_table (cfg : Config) (q : string) :
  process_command cfg q
  = rule_body cfg (route (strip (lower q))) (strip (lower q)).
Proof.
  unfold process_command, route.
  generalize (strip (lower q)) as n. intro n.
  cbv zeta. cbn [rules find rule_matches].
  repeat match goal with
         | |- (if ?c then _ else _) = _ =>
             destruct c eqn:?; [reflexivity|]
         end.
  destruct (search_abs_volume n) eqn:Ev; cbn [is_some]; [cbn [rule_body]; now rewrite Ev|].
  repeat match goal with
         | |- (if ?c then _ else _) = _ =>
             destruct c eqn:?; [reflexivity|]
         end.
  reflexivity.
Qed.

(** ** Programs *)

Lemma returns_bind {A B : Type} (p : Prog A) (f : A -> Prog B) :
  returns p -> (forall a, returns (f a)) -> returns (bind p f).
Proof.
  induction p as [a|e|X ev k IH]; simpl; intros Hp Hf; auto.
Qed.

Lemma returns_catch {A : Type} (p : Prog A) (h : Exn -> Prog A) :
  (forall e, returns (h e)) -> returns (catch p h).
Proof.
  induction p as [a|e|X ev k IH]; simpl; intros Hh; auto.
Qed.

Lemma returns_trigger {X : Type} (ev : Event X) : returns (trigger ev).
Proof. simpl. auto. Qed.

Lemma runs_returns {A : Type} (p : Prog A) (tr : list Obs) (out : result A) :
  returns p -> runs p tr out -> exists a, out = Ok a.
Proof.
  revert tr. induction p as [a|e|X ev k IH]; simpl; intros tr Hp Hr.
  - destruct Hr as [_ ->]. now exists a.
  - contradiction.
  - destruct Hr as (x & tr' & _ & Hr). eauto.
Qed.

Lemma runs_bind {A B : Type} (p : Prog A) (f : A -> Prog B)
    (tr : list Obs) (out : result B) :
  runs (bind p f) tr out <->
  (exists tr1 a tr2, runs p tr1 (Ok a) /\ runs (f a) tr2 out /\ tr = (tr1 ++ tr2)%list)
  \/ (exists e, runs p tr (Raised e) /\ out = Raised e).
Proof.
  revert tr. induction p as [a|e|X ev k IH]; simpl; intros tr.
  - split.
    + intros H. left. exists [], a, tr. auto.
    + intros [(tr1 & a' & tr2 & [-> Ha] & H & ->)|(e & [_ He] & _)].
      * injection Ha as <-. exact H.
      * discriminate.
  - split.
    + intros [-> ->]. right. exists e. auto.
    + intros [(tr1 & a' & tr2 & [_ Ha] & _)|(e' & [-> He] & ->)].
      * discriminate.
      * injection He as <-. auto.
  - split.
    + intros (x & tr' & -> & H). apply IH in H.
      destruct H as [(tr1 & a & tr2 & H1 & H2 & ->)|(e & H1 & ->)].
      * left. exists (Observed ev x :: tr1), a, tr2. repeat split; eauto.
      * right. exists e. split; eauto.
    + intros [(tr1 & a & tr2 & (x & tr' & -> & H1) & H2 & ->)|(e & (x & tr' & -> & H1) & ->)].
      * exists x, (tr' ++ tr2)%list. split; [reflexivity|]. apply IH. left. eauto 10.
      * exists x, tr'. split; [reflexivity|]. apply IH. right. eauto.
Qed.

Lemma exec_runs {A W : Type} (answer : forall X, Event X -> W -> X * W)
    (p : Prog A) (w : W) :
  runs p (fst (fst (exec answer p w))) (snd (fst (exec answer p w))).
Proof.
  revert w. induction p as [a|e|X ev k IH]; simpl; intros w; auto.
  destruct (answer X ev w) as [x w1].
  specialize (IH x w1). destruct (exec answer (k x) w1) as [[tr out] w2].
  simpl in *. eauto.
Qed.

(** The run of a program in a world, as a run. *)
Lemma exec_is_run {A W : Type} (answer : forall X, Event X -> W -> X * W)
    (p : Prog A) (w w' : W) (tr : list Obs) (out : result A) :
  exec answer p w = (tr, out, w') -> runs p tr out.
Proof. intros E. pose proof (exec_runs answer p w) as R. now rewrite E in R. Qed.


(** ** Digit runs and [int] *)

Lemma literal_digits_all (s : string) :
  forall (b : bool) (acc : Z),
    all_chars isdigit s = true -> s <> "" \/ b = true ->
    literal_digits b acc s = Some (decimal_from acc s).
Proof.
  induction s as [|c r IH]; simpl; intros b acc Hall Hne.
  - destruct Hne as [Hne| ->]; [now elim Hne | reflexivity].
  - apply andb_true_iff in Hall as [Hc Hr]. rewrite Hc. apply IH; auto.
Qed.

Lemma rstrip_by_none (sp : ascii -> bool) (s : string) :
  all_chars (fun c => negb (sp c)) s = true -> rstrip_by sp s = s.
Proof.
  induction s as [|c r IH]; simpl; [reflexivity|].
  intros H. apply andb_true_iff in H as [Hc Hr].
  apply negb_true_iff in Hc. rewrite Hc. simpl. now rewrite IH.
Qed.

Lemma all_chars_impl (p p' : ascii -> bool) (s : string) :
  (forall c, p c = true -> p' c = true) ->
  all_chars p s = true -> all_chars p' s = true.
Proof.
  intros Hpp. induction s as [|c r IH]; simpl; [reflexivity|].
  intros H. apply andb_true_iff in H as [Hc Hr].
  rewrite (Hpp c Hc). simpl. auto.
Qed.

Lemma strip_by_digits (s : string) :
  all_chars isdigit s = true -> strip_by int_space s = s.
Proof.
  intros H. unfold strip_by.
  assert (L : lstrip_by int_space s = s).
  { destruct s as [|c r]; simpl; [reflexivity|].
    simpl in H. apply andb_true_iff in H as [Hc _].
    now rewrite (digit_not_int_space c Hc). }
  rewrite L. apply rstrip_by_none.
  apply (all_chars_impl isdigit); [|exact H].
  intros c Hc. now rewrite (digit_not_int_space c Hc).
Qed.

Lemma count_chars_all (p : ascii -> bool) (s : string) :
  all_chars p s = true -> count_chars p s = String.length s.
Proof.
  induction s as [|c r IH]; cbn [all_chars count_chars String.length];
    [reflexivity|].
  intros H. apply andb_true_iff in H as [Hc Hr]. rewrite Hc. now rewrite IH.
Qed.

(** [int] on a run of digits: its value, unless the run is longer than the
    limit. *)
Lemma py_int_run (s : string) :
  s <> "" -> all_chars isdigit s = true ->
  py_int s = if (int_max_str_digits <? String.length s)%nat
             then None else Some (decimal s).
Proof.
  intros Hne Hall. unfold py_int, decimal. rewrite (strip_by_digits s Hall).
  assert (G : int_literal s
              = if (int_max_str_digits <? String.length s)%nat
                then None else Some (decimal_from 0 s)).
  { unfold int_literal. rewrite (count_chars_all isdigit s Hall).
    destruct (int_max_str_digits <? String.length s)%nat; [reflexivity|].
    exact (literal_digits_all s false 0 Hall (or_introl Hne)). }
  destruct s as [|c r]; [now elim Hne|].
  cbn [all_chars] in Hall. apply andb_true_iff in Hall as [Hc _].
  destruct c as [[] [] [] [] [] [] [] []]; try discriminate Hc; exact G.
Qed.

Lemma py_int_digits (s : string) :
  s <> "" -> all_chars isdigit s = true ->
  (String.length s <= int_max_str_digits)%nat ->
  py_int s = Some (decimal s).
Proof.
  intros Hne Hall Hlen. rewrite (py_int_run s Hne Hall).
  apply Nat.ltb_ge in Hlen. now rewrite Hlen.
Qed.

Lemma py_int_too_long (s : string) :
  s <> "" -> all_chars isdigit s = true ->
  (int_max_str_digits < String.length s)%nat ->
  py_int s = None.
Proof.
  intros Hne Hall Hlen. rewrite (py_int_run s Hne Hall).
  apply Nat.ltb_lt in Hlen. now rewrite Hlen.
Qed.

Lemma decimal_from_nonneg (s : string) :
  forall acc, 0 <= acc -> all_chars isdigit s = true -> 0 <= decimal_from acc s.
Proof.
  induction s as [|c r IH]; cbn [decimal_from all_chars];
    intros acc Hacc Hall; [exact Hacc|].
  apply andb_true_iff in Hall as [Hc Hr].
  apply IH; [|exact Hr]. pose proof (digit_val_range c Hc). lia.
Qed.

Lemma take_while_digit_lower (s : string) :
  take_while isdigit (lower s) = take_while isdigit s.
Proof.
  induction s as [|c r IH]; simpl; [reflexivity|].
  rewrite isdigit_lower_char. destruct (isdigit c) eqn:E; [|reflexivity].
  now rewrite IH, (lower_char_digit c E).
Qed.

Lemma search_digits_lower (s : string) :
  search_digits (lower s) = search_digits s.
Proof.
  induction s as [|c r IH]; simpl; [reflexivity|].
  rewrite isdigit_lower_char. destruct (isdigit c) eqn:E; [|exact IH].
  now rewrite take_while_digit_lower, (lower_char_digit c E).
Qed.

Lemma space_not_digit (c : ascii) : isspace c = true -> isdigit c = false.
Proof.
  intros H. destruct (isdigit c) eqn:E; [|reflexivity].
  rewrite (digit_not_space c E) in H. discriminate.
Qed.

Lemma search_digits_lstrip (s : string) :
  search_digits (lstrip_by isspace s) = search_digits s.
Proof.
  induction s as [|c r IH]; simpl; [reflexivity|].
  destruct (isspace c) eqn:E; [|reflexivity].
  now rewrite (space_not_digit c E).
Qed.

Lemma take_while_digit_rstrip (s : string) :
  take_while isdigit (rstrip_by isspace s) = take_while isdigit s.
Proof.
  induction s as [|c r IH]; simpl; [reflexivity|].
  destruct (isspace c) eqn:E; simpl.
  - rewrite (space_not_digit c E).
    destruct (is_empty (rstrip_by isspace r)); simpl; [reflexivity|].
    now rewrite (space_not_digit c E).
  - now rewrite IH.
Qed.

Lemma search_digits_rstrip (s : string) :
  search_digits (rstrip_by isspace s) = search_digits s.
Proof.
  induction s as [|c r IH]; simpl; [reflexivity|].
  destruct (isspace c) eqn:E; simpl.
  - rewrite (space_not_digit c E).
    destruct (rstrip_by isspace r) eqn:R; simpl.
    + now rewrite <- IH.
    + now rewrite (space_not_digit c E).
  - now rewrite IH, take_while_digit_rstrip.
Qed.

Lemma search_digits_normalized (s : string) :
  search_digits (lower (strip s)) = search_digits s.
Proof.
  unfold strip, strip_by.
  now rewrite search_digits_lower, search_digits_rstrip, search_digits_lstrip.
Qed.

Lemma take_while_run (run post : string) :
  all_chars isdigit run = true -> no_digit_ahead post = true ->
  take_while isdigit (run ++ post) = run.
Proof.
  intros Hrun Hpost. induction run as [|c r IH]; simpl.
  - destruct post as [|d post]; simpl; [reflexivity|].
    simpl in Hpost. apply negb_true_iff in Hpost. now rewrite Hpost.
  - simpl in Hrun. apply andb_true_iff in Hrun as [Hc Hr].
    now rewrite Hc, IH.
Qed.

Lemma search_digits_first_run (pre run post : string) :
  has_digit pre = false -> run <> "" -> all_chars isdigit run = true ->
  no_digit_ahead post = true ->
  search_digits (pre ++ run ++ post) = Some run.
Proof.
  intros Hpre Hne Hrun Hpost. induction pre as [|c pre IH]; simpl.
  - destruct run as [|c r]; [now elim Hne|]. simpl.
    simpl in Hrun. apply andb_true_iff in Hrun as [Hc Hr].
    now rewrite Hc, take_while_run.
  - unfold has_digit in Hpre. simpl in Hpre.
    apply orb_false_iff in Hpre as [Hc Hp]. rewrite Hc. now apply IH.
Qed.

(** A text with a digit splits around its first run of digits. *)
Lemma first_run_exists (s : string) :
  has_digit s = true ->
  exists pre run post,
    s = pre ++ run ++ post /\ has_digit pre = false /\ run <> ""
    /\ all_chars isdigit run = true /\ no_digit_ahead post = true.
Proof.
  unfold has_digit.
  induction s as [|c r IH]; simpl; [discriminate|].
  destruct (isdigit c) eqn:Hc; simpl.
  - intros _.
    assert (T : forall t, exists run post,
                t = run ++ post /\ all_chars isdigit run = true
                /\ no_digit_ahead post = true).
    { induction t as [|d t IHt].
      - exists "", "". auto.
      - destruct (isdigit d) eqn:Hd.
        + destruct IHt as (run & post & -> & Hr & Hp).
          exists (String d run), post. simpl. rewrite Hd. auto.
        + exists "", (String d t). simpl. rewrite Hd. auto. }
    destruct (T r) as (run & post & -> & Hr & Hp).
    exists "", (String c run), post. simpl. rewrite Hc.
    repeat split; auto. discriminate.
  - intros H. destruct (IH H) as (pre & run & post & -> & Hpre & Hne & Hr & Hp).
    exists (String c pre), run, post. simpl. unfold has_digit in *. simpl.
    rewrite Hc. auto.
Qed.

(** The parser on a text with a run of digits: the value of the first run
    when [int] takes it, the scan of the tokens when the run is too long
    for [int]. *)
Lemma parse_first_run_cases (pre run post : string) :
  has_digit pre = false -> run <> "" -> all_chars isdigit run = true ->
  no_digit_ahead post = true ->
  parse_spoken_number (pre ++ run ++ post)
  = if (int_max_str_digits <? String.length run)%nat
    then scan_tokens (re_split_nonword (lower (strip (pre ++ run ++ post))))
    else decimal run.
Proof.
  intros Hpre Hne Hr Hp.
  unfold parse_spoken_number. cbv zeta.
  assert (Hs : search_digits (lower (strip (pre ++ run ++ post))) = Some run).
  { rewrite search_digits_normalized. now apply search_digits_first_run. }
  destruct (lower (strip (pre ++ run ++ post))) as [|c r] eqn:En;
    [discriminate Hs|].
  cbn [is_empty]. rewrite Hs. rewrite (py_int_run run Hne Hr).
  now destruct (int_max_str_digits <? String.length run)%nat.
Qed.

Lemma parse_first_run (pre run post : string) :
  has_digit pre = false -> run <> "" -> all_chars isdigit run = true ->
  no_digit_ahead post = true ->
  (String.length run <= int_max_str_digits)%nat ->
  parse_spoken_number (pre ++ run ++ post) = decimal run.
Proof.
  intros Hpre Hne Hr Hp Hlen.
  rewrite (parse_first_run_cases pre run post Hpre Hne Hr Hp).
  apply Nat.ltb_ge in Hlen. now rewrite Hlen.
Qed.

(** C2, as the code has it: when the text has a run of digits and the first
    run (the digits between a prefix without digits and a rest that does
    not begin with a digit) has at most 4300 digits, the limit of [int],
    [parse_spoken_number] returns the value of that run, which is not
    negative, whatever number words the text has. *)
Theorem parse_spoken_number_digit_run (pre run post : string) :
  has_digit pre = false -> run <> "" -> all_chars isdigit run = true ->
  no_digit_ahead post = true ->
  (String.length run <= int_max_str_digits)%nat ->
  parse_spoken_number (pre ++ run ++ post) = decimal run /\ 0 <= decimal run.
Proof.
  intros Hpre Hne Hr Hp Hlen. split.
  - now apply parse_first_run.
  - now apply decimal_from_nonneg.
Qed.

Lemma parse_spoken_number_digit_run_witness :
  parse_spoken_number "two 3" = 3 /\ 0 <= 3.
Proof.
  apply (parse_spoken_number_digit_run "two " "3" "");
    [reflexivity | discriminate | reflexivity | reflexivity
    | unfold int_max_str_digits; cbn [String.length]; lia].
Defined.

(** C2 as stated fails: the first run of digits of "two " followed by 4301
    nines is the 4301 nines, [int] raises on it, the parser goes on with
    the number words and returns 2, which is not the value of the run. *)
Lemma long_digit_run_falls_through :
  has_digit ("two " ++ repeat_char "9" 4301) = true
  /\ parse_spoken_number ("two " ++ repeat_char "9" 4301) = 2
  /\ 2 < decimal (repeat_char "9" 4301)
  /\ ~ (forall pre run post,
          has_digit pre = false -> run <> "" -> all_chars isdigit run = true ->
          no_digit_ahead post = true ->
          parse_spoken_number (pre ++ run ++ post) = decimal run).
Proof.
  assert (P : parse_spoken_number ("two " ++ repeat_char "9" 4301) = 2)
    by (vm_compute; reflexivity).
  assert (D : 2 < decimal (repeat_char "9" 4301))
    by (vm_compute; reflexivity).
  split; [vm_compute; reflexivity|]. split; [exact P|]. split; [exact D|].
  intros C.
  assert (E : parse_spoken_number ("two " ++ repeat_char "9" 4301 ++ "")
              = decimal (repeat_char "9" 4301)).
  { apply C.
    - reflexivity.
    - intros N. vm_compute in N. discriminate N.
    - vm_compute; reflexivity.
    - reflexivity. }
  assert (P' : parse_spoken_number ("two " ++ repeat_char "9" 4301 ++ "") = 2)
    by (vm_compute; reflexivity).
  rewrite P' in E. lia.
Qed.

(** Every text with a digit splits around its first run; the parser
    returns the value of that run when [int] takes it, and what the scan of
    the tokens gives when the run is too long for [int]. *)
Lemma parse_spoken_number_with_digit (s : string) :
  has_digit s = true ->
  exists pre run post,
    s = pre ++ run ++ post /\ has_digit pre = false /\ run <> ""
    /\ all_chars isdigit run = true /\ no_digit_ahead post = true
    /\ parse_spoken_number s
       = if (int_max_str_digits <? String.length run)%nat
         then scan_tokens (re_split_nonword (lower (strip s)))
         else decimal run.
Proof.
  intros H.
  destruct (first_run_exists s H) as (pre & run & post & E & Hpre & Hne & Hr & Hp).
  exists pre, run, post. repeat split; auto.
  rewrite E. now apply parse_first_run_cases.
Qed.

(** ** Word tokens *)

Lemma search_digits_none (s : string) :
  has_digit s = false -> search_digits s = None.
Proof.
  unfold has_digit. induction s as [|c r IH]; simpl; [reflexivity|].
  intros H. apply orb_false_iff in H as [Hc Hr]. rewrite Hc. auto.
Qed.

Lemma scan_tokens_first (pre : list string) (t : string) (post : list string) (v : Z) :
  (forall u, In u pre -> dict_get WORD_NUMS u = None) ->
  dict_get WORD_NUMS t = Some v ->
  scan_tokens (pre ++ t :: post) = v.
Proof.
  intros Hpre Ht. induction pre as [|u pre IH]; cbn [scan_tokens app].
  - now rewrite Ht.
  - rewrite (Hpre u (or_introl eq_refl)). apply IH.
    intros u' Hu. apply Hpre. now right.
Qed.

Lemma scan_tokens_none (toks : list string) :
  (forall u, In u toks -> dict_get WORD_NUMS u = None) ->
  scan_tokens toks = -1.
Proof.
  induction toks as [|u toks IH]; cbn [scan_tokens]; intros H; [reflexivity|].
  rewrite (H u (or_introl eq_refl)). apply IH. intros u' Hu. apply H. now right.
Qed.

Lemma dict_get_range (d : list (string * Z)) (lo hi : Z) (t : string) (v : Z) :
  forallb (fun kv => (lo <=? snd kv) && (snd kv <=? hi)) d = true ->
  dict_get d t = Some v -> lo <= v <= hi.
Proof.
  induction d as [|[k w] d IH]; cbn [dict_get forallb snd]; [discriminate|].
  intros H. apply andb_true_iff in H as [Hw Hd].
  destruct (String.eqb t k).
  - intros [= <-]. lia.
  - now apply IH.
Qed.

Lemma WORD_NUMS_range (t : string) (v : Z) :
  dict_get WORD_NUMS t = Some v -> 0 <= v <= 10.
Proof. apply dict_get_range. reflexivity. Qed.

Lemma split_nonword_in_sep (s : string) :
  split_nonword "" true s = split_nonword "" false (lstrip_by nonword s).
Proof.
  induction s as [|c r IH]; cbn [split_nonword lstrip_by]; [reflexivity|].
  unfold nonword at 1. destruct (isword c) eqn:E; cbn [negb].
  - cbn [split_nonword]. now rewrite E.
  - exact IH.
Qed.

Lemma lstrip_by_split (sp : ascii -> bool) (s : string) :
  exists sep, s = sep ++ lstrip_by sp s /\ all_chars sp sep = true.
Proof.
  induction s as [|c r (sep & E & H)]; cbn [lstrip_by].
  - exists "". auto.
  - destruct (sp c) eqn:Ec.
    + exists (String c sep). cbn. rewrite Ec, H. now rewrite <- E.
    + exists "". auto.
Qed.

Lemma lstrip_by_length (sp : ascii -> bool) (s : string) :
  (String.length (lstrip_by sp s) <= String.length s)%nat.
Proof.
  induction s as [|c r IH]; cbn [lstrip_by String.length]; [lia|].
  destruct (sp c); cbn [String.length]; lia.
Qed.

Lemma lstrip_by_ahead (s : string) : word_ahead (lstrip_by nonword s) = true.
Proof.
  induction s as [|c r IH]; cbn [lstrip_by]; [reflexivity|].
  unfold nonword at 1. destruct (isword c) eqn:E; cbn [negb]; [|exact IH].
  exact E.
Qed.

Lemma append_assoc (a b c : string) : (a ++ b) ++ c = a ++ (b ++ c).
Proof. induction a as [|x a IH]; cbn; [reflexivity|now rewrite IH]. Qed.

Lemma append_empty (a : string) : a ++ "" = a.
Proof. induction a as [|x a IH]; cbn; [reflexivity|now rewrite IH]. Qed.

Lemma all_chars_app (p : ascii -> bool) (a b : string) :
  all_chars p (a ++ b) = all_chars p a && all_chars p b.
Proof.
  induction a as [|x a IH]; cbn; [reflexivity|]. now rewrite IH, andb_assoc.
Qed.

Lemma split_nonword_pieces (n : nat) :
  forall s cur, (String.length s <= n)%nat -> all_chars isword cur = true ->
                pieces (cur ++ s) (split_nonword cur false s).
Proof.
  induction n as [|n IH]; intros s cur Hn Hcur.
  - destruct s; [|cbn in Hn; lia]. rewrite append_empty. now constructor.
  - destruct s as [|c r]; [rewrite append_empty; now constructor|].
    cbn [split_nonword]. cbn [String.length] in Hn.
    destruct (isword c) eqn:E.
    + replace (cur ++ String c r) with ((cur ++ String c "") ++ r)
        by now rewrite append_assoc.
      apply IH; [lia|]. rewrite all_chars_app, Hcur. cbn. now rewrite E.
    + rewrite split_nonword_in_sep.
      destruct (lstrip_by_split nonword r) as (sep & Er & Hsep).
      replace (String c r) with (String c sep ++ lstrip_by nonword r)
        by (cbn; now rewrite <- Er).
      apply pieces_more; auto.
      * discriminate.
      * cbn. unfold nonword at 1. now rewrite E, Hsep.
      * apply lstrip_by_ahead.
      * apply (IH (lstrip_by nonword r) ""); [|reflexivity].
        pose proof (lstrip_by_length nonword r). lia.
Qed.

Lemma re_split_nonword_pieces (s : string) : pieces s (re_split_nonword s).
Proof.
  apply (split_nonword_pieces (String.length s) s ""); auto.
Qed.

Lemma span_unique (p : ascii -> bool) (a a' b b' : string) :
  all_chars p a = true -> all_chars p a' = true ->
  stops p b -> stops p b' ->
  a ++ b = a' ++ b' -> a = a' /\ b = b'.
Proof.
  revert a'. induction a as [|x a IH]; intros a' Ha Ha' Hb Hb' E.
  - destruct a' as [|y a']; [auto|].
    cbn in E, Ha'. apply andb_true_iff in Ha' as [Hy _].
    subst b. cbn in Hb. congruence.
  - destruct a' as [|y a'].
    + cbn in E, Ha. apply andb_true_iff in Ha as [Hx _].
      subst b'. cbn in Hb'. congruence.
    + cbn in E, Ha, Ha'. injection E as <- E.
      apply andb_true_iff in Ha as [_ Ha]. apply andb_true_iff in Ha' as [_ Ha'].
      destruct (IH a' Ha Ha' Hb Hb' E) as [-> ->]. auto.
Qed.

Lemma stops_word_sep (sep rest : string) :
  sep <> "" -> all_chars nonword sep = true -> stops isword (sep ++ rest).
Proof.
  destruct sep as [|c sep]; [now intros []|]. intros _ H. cbn in *.
  apply andb_true_iff in H as [Hc _]. now apply negb_true_iff in Hc.
Qed.

Lemma stops_nonword_ahead (rest : string) :
  word_ahead rest = true -> stops nonword rest.
Proof.
  destruct rest as [|c r]; cbn; [auto|]. intros H. unfold nonword. now rewrite H.
Qed.

Lemma pieces_unique (s : string) (t1 t2 : list string) :
  pieces s t1 -> pieces s t2 -> t1 = t2.
Proof.
  intros H1. revert t2.
  induction H1 as [w Hw|w sep rest toks Hw Hne Hsep Hrest H1 IH]; intros t2 H2.
  - inversion H2 as [w' Hw' E1|w' sep' rest' toks' Hw' Hne' Hsep' Hrest' H' E1]; subst.
    + reflexivity.
    + exfalso. rewrite !all_chars_app in Hw.
      apply andb_true_iff in Hw as [_ Hw]. apply andb_true_iff in Hw as [Hw _].
      destruct sep' as [|c sep']; [now apply Hne'|].
      cbn in Hw, Hsep'. unfold nonword in Hsep'.
      apply andb_true_iff in Hw as [Hc _]. now rewrite Hc in Hsep'.
  - inversion H2 as [w' Hw' E1|w' sep' rest' toks' Hw' Hne' Hsep' Hrest' H' E1]; subst.
    + exfalso. rewrite !all_chars_app in Hw'.
      apply andb_true_iff in Hw' as [_ Hw']. apply andb_true_iff in Hw' as [Hw' _].
      destruct sep as [|c sep]; [now apply Hne|].
      cbn in Hw', Hsep. unfold nonword in Hsep.
      apply andb_true_iff in Hw' as [Hc _]. now rewrite Hc in Hsep.
    + destruct (span_unique isword w' w (sep' ++ rest') (sep ++ rest))
        as [-> E2]; auto using stops_word_sep.
      destruct (span_unique nonword sep' sep rest' rest)
        as [-> ->]; auto using stops_nonword_ahead.
      f_equal. now apply IH.
Qed.

(** C3: when the text has no digit, [parse_spoken_number] returns the table
    value of the left-most piece of the lower-cased, stripped text that is
    in the table, the pieces being what is left between the runs of
    non-word characters; it returns -1 when no piece is in the table and
    when the text is empty or blank.  The value is the one of the table (0
    to 10), whatever bound the caller has; the table has the homophones and
    the ordinals. *)
Theorem parse_spoken_number_words (s : string) (toks : list string) :
  has_digit s = false ->
  pieces (lower (strip s)) toks ->
  (forall pre t post v,
      toks = (pre ++ t :: post)%list ->
      (forall u, In u pre -> dict_get WORD_NUMS u = None) ->
      dict_get WORD_NUMS t = Some v ->
      parse_spoken_number s = v /\ 0 <= v <= 10)
  /\ ((forall u, In u toks -> dict_get WORD_NUMS u = None) ->
      parse_spoken_number s = -1)
  /\ (is_empty (strip s) = true -> parse_spoken_number s = -1)
  /\ map (dict_get WORD_NUMS) ["to"; "too"; "for"; "ate"]
     = [Some 2; Some 2; Some 4; Some 8]
  /\ map (dict_get WORD_NUMS)
       ["first"; "second"; "third"; "fourth"; "fifth";
        "sixth"; "seventh"; "eighth"; "ninth"; "tenth"]
     = map Some [1; 2; 3; 4; 5; 6; 7; 8; 9; 10].
Proof.
  intros Hd Hp.
  assert (Et : toks = re_split_nonword (lower (strip s)))
    by (eapply pieces_unique; [exact Hp|apply re_split_nonword_pieces]).
  assert (Hs : search_digits (lower (strip s)) = None).
  { rewrite search_digits_normalized. now apply search_digits_none. }
  assert (P : parse_spoken_number s
              = if is_empty (lower (strip s)) then -1
                else scan_tokens (re_split_nonword (lower (strip s)))).
  { unfold parse_spoken_number. cbv zeta. now rewrite Hs. }
  split; [|split; [|split; [|split; reflexivity]]].
  - intros pre t post v E Hpre Ht. split; [|now apply (WORD_NUMS_range t)].
    rewrite P, <- Et, E. destruct (lower (strip s)) as [|c r] eqn:En.
    + cbn in Et. rewrite Et in E. destruct pre as [|u pre]; cbn in E.
      * injection E as <- <-. discriminate Ht.
      * injection E as _ E. now destruct pre.
    + cbn [is_empty]. now apply scan_tokens_first.
  - intros Hnone. rewrite P, <- Et.
    destruct (is_empty (lower (strip s))); [reflexivity|].
    now apply scan_tokens_none.
  - intros He. rewrite P, is_empty_lower, He. reflexivity.
Qed.

Lemma parse_spoken_number_words_witness :
  parse_spoken_number " Second, or third" = 2 /\ 0 <= 2 <= 10.
Proof.
  refine (proj1 (parse_spoken_number_words " Second, or third"
                   ["second"; "or"; "third"] _ _)
            [] "second" ["or"; "third"] 2 _ _ _).
  - reflexivity.
  - exact (pieces_more "second" ", " "or third" ["or"; "third"]
             eq_refl ltac:(discriminate) eq_refl eq_refl
             (pieces_more "or" " " "third" ["third"]
                eq_refl ltac:(discriminate) eq_refl eq_refl
                (pieces_last "third" eq_refl))).
  - reflexivity.
  - intros u [].
  - reflexivity.
Defined.

(** ** No exception escapes *)


Ltac returns_step :=
  match goal with
  | |- True => exact I
  | |- forall _, _ => intro
  | |- returns (Ret _) => exact I
  | |- returns (trigger _) => apply returns_trigger
  | |- returns (catch _ _) => apply returns_catch
  | |- returns (bind _ _) => apply returns_bind
  | |- returns (if ?c then _ else _) => destruct c
  | |- returns (match ?x with _ => _ end) => destruct x
  end.

Ltac returns_tac := repeat returns_step.

Lemma returns_speak_and_print (cfg : Config) (text : string) :
  returns (speak_and_print cfg text).
Proof. unfold speak_and_print, _sa_play_wav_bytes, _toast, _tts_local_pyttsx3. returns_tac. Qed.

Lemma returns_open_file (path : string) : returns (open_file path).
Proof. unfold open_file. returns_tac. Qed.

Lemma returns_get_user_selection (cfg : Config) (max_index : Z) :
  returns (get_user_selection_via_voice_or_input cfg max_index).
Proof.
  unfold get_user_selection_via_voice_or_input.
  apply returns_bind; [apply returns_speak_and_print|]. returns_tac.
Qed.

Lemma nth_error_in_range {A : Type} (l : list A) (sel : Z) :
  1 <= sel <= Z.of_nat (List.length l) ->
  exists a, nth_error l (Z.to_nat (sel - 1)) = Some a.
Proof.
  intros H. destruct (nth_error l (Z.to_nat (sel - 1))) eqn:E; [eauto|].
  apply nth_error_None in E. lia.
Qed.

Lemma returns_after_selection (matches : list string) (sel : Z) :
  returns (after_selection matches sel).
Proof.
  unfold after_selection.
  destruct (sel =? 0); [exact I|].
  destruct ((1 <=? sel) && (sel <=? Z.of_nat (List.length matches))) eqn:E; [|exact I].
  apply andb_true_iff in E as [E1 E2].
  destruct (nth_error_in_range matches sel) as [a ->]; [lia|].
  apply returns_bind; [apply returns_open_file|]. returns_tac.
Qed.

Lemma returns_after_search (cfg : Config) (term : string) (matches : list string) :
  returns (after_search cfg term matches).
Proof.
  unfold after_search. destruct matches as [|m [|m' ms]].
  - exact I.
  - apply returns_bind; [apply returns_open_file|]. returns_tac.
  - apply returns_bind; [apply returns_trigger|]. intros _.
    apply returns_bind; [apply returns_get_user_selection|].
    intros sel. apply returns_after_selection.
Qed.

Lemma returns_file_search (cfg : Config) (q : string) : returns (file_search cfg q).
Proof.
  unfold file_search. cbv zeta.
  destruct (is_empty (search_terms_of q) || _); [exact I|].
  apply returns_bind; [unfold search_files; returns_tac|].
  intros matches. apply returns_after_search.
Qed.

Lemma re_search_some {A : Type} (match_at : string -> option A) (s : string) (m : A) :
  re_search match_at s = Some m ->
  exists pre t, s = pre ++ t /\ match_at t = Some m.
Proof.
  induction s as [|c r IH]; cbn [re_search].
  - destruct (match_at "") eqn:E; [|discriminate].
    intros [= <-]. exists "", "". auto.
  - destruct (match_at (String c r)) eqn:E.
    + intros [= <-]. exists "", (String c r). auto.
    + intros H. destruct (IH H) as (pre & t & -> & Ht).
      exists (String c pre), t. auto.
Qed.

Lemma all_chars_take_while (p : ascii -> bool) (s : string) :
  all_chars p (take_while p s) = true.
Proof.
  induction s as [|c r IH]; cbn; [reflexivity|].
  destruct (p c) eqn:E; cbn; [now rewrite E|reflexivity].
Qed.

Lemma all_chars_take (p : ascii -> bool) (n : nat) (s : string) :
  all_chars p s = true -> all_chars p (take n s) = true.
Proof.
  revert s. induction n as [|n IH]; intros [|c r]; cbn; auto.
  intros H. apply andb_true_iff in H as [Hc Hr]. now rewrite Hc, IH.
Qed.

Lemma length_take_le (n : nat) (s : string) :
  (String.length (take n s) <= n)%nat.
Proof.
  revert s. induction n as [|n IH]; intros [|c r]; cbn [take String.length];
    try lia. specialize (IH r). lia.
Qed.

Lemma volume_digits_at_digits (s d : string) :
  volume_digits_at s = Some d ->
  d <> "" /\ all_chars isdigit d = true /\ (String.length d <= 3)%nat.
Proof.
  unfold volume_digits_at. destruct (startswith "volume" s); [|discriminate].
  cbv zeta.
  assert (D : all_chars isdigit
                (take 3 (take_while isdigit (lstrip_by isspace (drop 6 s)))) = true)
    by apply all_chars_take, all_chars_take_while.
  assert (L := length_take_le 3 (take_while isdigit (lstrip_by isspace (drop 6 s)))).
  revert D L.
  generalize (take 3 (take_while isdigit (lstrip_by isspace (drop 6 s)))) as t.
  intros t D L. destruct t as [|c t]; cbn [is_empty]; [discriminate|].
  intros [= <-]. split; [discriminate|split; [exact D|exact L]].
Qed.

Lemma search_abs_volume_digits (q d : string) :
  search_abs_volume q = Some d ->
  d <> "" /\ all_chars isdigit d = true /\ (String.length d <= 3)%nat.
Proof.
  intros H. apply re_search_some in H as (pre & t & _ & H).
  unfold abs_volume_at in H. cbv zeta in H.
  destruct (if startswith "set" t then _ else None) eqn:E.
  - injection H as ->. destruct (startswith "set" t); [|discriminate].
    eapply volume_digits_at_digits; eauto.
  - eapply volume_digits_at_digits; eauto.
Qed.

Lemma returns_set_volume_absolute (p : Z) : returns (set_volume_absolute p).
Proof. unfold set_volume_absolute. returns_tac. Qed.

Lemma returns_rule_body (cfg : Config) (q : string) :
  returns (rule_body cfg (route q) q).
Proof.
  assert (M : rule_matches (route q) q = true).
  { unfold route. destruct (find _ rules) eqn:E; [|reflexivity].
    now apply find_some in E. }
  destruct (route q); cbn [rule_body];
    try (unfold wikipedia_lookup, play_on_youtube, tell_joke, weather_report,
         fetch_weather_from_google, control_volume, brightness_up,
         brightness_down, set_brightness, screenshot, take_screenshot,
         is_connected, fetch_gemini_response; now returns_tac).
  - cbn [rule_matches] in M. destruct (search_abs_volume q) as [d|] eqn:E;
      [|discriminate].
    apply search_abs_volume_digits in E as (Hne & Hd & Hlen).
    unfold volume_to. rewrite (py_int_digits d Hne Hd);
      [|unfold int_max_str_digits; lia].
    apply returns_set_volume_absolute.
  - apply returns_file_search.
Qed.

Theorem process_command_returns (cfg : Config) (q : string) :
  returns (process_command cfg q).
Proof. rewrite process_command_table. apply returns_rule_body. Qed.

(** ** First match *)

Lemma rule_eqb_eq (a b : Rule) : rule_eqb a b = true <-> a = b.
Proof. destruct a, b; split; intros H; try reflexivity; discriminate H. Qed.

Lemma rule_index_inj (a b : Rule) : rule_index a = rule_index b -> a = b.
Proof. destruct a, b; intros H; try reflexivity; discriminate H. Qed.

Lemma find_first (f : Rule -> bool) (l : list Rule) (r : Rule) :
  find f l = Some r ->
  f r = true /\
  forall r', (index_in (rule_eqb r') l < index_in (rule_eqb r) l)%nat -> f r' = false.
Proof.
  induction l as [|a l IH]; cbn [find index_in]; [discriminate|].
  destruct (f a) eqn:Fa.
  - intros [= <-]. split; [exact Fa|].
    intros r'. rewrite (proj2 (rule_eqb_eq a a) eq_refl). lia.
  - intros H. destruct (IH H) as [Fr Hbefore]. split; [exact Fr|].
    intros r'. destruct (rule_eqb r a) eqn:Era.
    + apply rule_eqb_eq in Era. congruence.
    + destruct (rule_eqb r' a) eqn:Er'a.
      * apply rule_eqb_eq in Er'a. now subst.
      * intros Hlt. apply Hbefore. lia.
Qed.

Lemma route_selected (q : string) : selected (route q) q.
Proof.
  unfold route, selected, rule_index.
  destruct (find (fun r => rule_matches r q) rules) as [r|] eqn:E.
  - now apply find_first in E.
  - assert (I : In Fallback rules)
      by (unfold rules; repeat (try (left; reflexivity); right)).
    discriminate (find_none _ _ E Fallback I).
Qed.

Lemma selected_unique (q : string) (r r' : Rule) :
  selected r q -> selected r' q -> r = r'.
Proof.
  intros [M B] [M' B']. apply rule_index_inj.
  destruct (Nat.lt_trichotomy (rule_index r) (rule_index r')) as [L|[E|L]].
  - rewrite (B' r L) in M. discriminate.
  - exact E.
  - rewrite (B r' L) in M'. discriminate.
Qed.

Lemma route_fallback (q : string) :
  (forall r, r <> Fallback -> rule_matches r q = false) -> route q = Fallback.
Proof.
  intros H. destruct (route_selected q) as [M _].
  destruct (rule_eqb (route q) Fallback) eqn:E.
  - now apply rule_eqb_eq.
  - rewrite H in M; [discriminate|]. intros C. rewrite C in E. discriminate.
Qed.

(** C1: routing is total.  On the lower-cased, stripped text [n] of any
    input, exactly one rule is selected (it matches and no earlier rule
    does), it is the rule whose branch [process_command] runs, the branch
    is the conversational fallback when no other rule matches, and the
    function ends with a response string on every path. *)
Theorem process_command_total (cfg : Config) (q : string) :
  selected (route (strip (lower q))) (strip (lower q))
  /\ (forall r, selected r (strip (lower q)) -> r = route (strip (lower q)))
  /\ process_command cfg q
     = rule_body cfg (route (strip (lower q))) (strip (lower q))
  /\ ((forall r, r <> Fallback -> rule_matches r (strip (lower q)) = false) ->
      process_command cfg q = fetch_gemini_response cfg (strip (lower q)))
  /\ returns (process_command cfg q)
  /\ (forall tr out, runs (process_command cfg q) tr out ->
                     exists response, out = Ok response).
Proof.
  repeat split.
  - apply route_selected.
  - apply route_selected.
  - intros r Hr. apply (selected_unique (strip (lower q))); auto using route_selected.
  - apply process_command_table.
  - intros H. rewrite process_command_table, (route_fallback _ H). reflexivity.
  - apply process_command_returns.
  - intros tr out. apply runs_returns, process_command_returns.
Qed.

Lemma process_command_total_witness :
  process_command cfg0 "Who are you"
  = fetch_gemini_response cfg0 (strip (lower "Who are you")).
Proof.
  destruct (process_command_total cfg0 "Who are you") as (_ & _ & _ & H & _).
  apply H. intros r Hr.
  destruct r; try (vm_compute; reflexivity). now elim Hr.
Defined.

Lemma process_command_same_branch (cfg : Config) (q1 q2 : string) :
  strip (lower q1) = strip (lower q2) ->
  process_command cfg q1 = process_command cfg q2
  /\ route (strip (lower q1)) = route (strip (lower q2)).
Proof.
  intros E. rewrite (process_command_table cfg q1),
    (process_command_table cfg q2), E. auto.
Qed.

(** C10: for every input [q], [process_command q] is the same program as
    [process_command] of the lower-cased, stripped [q]; two inputs with the
    same lower-cased, stripped text run the same program and take the same
    rule. *)
Theorem process_command_normalizes (cfg : Config) (q : string) :
  process_command cfg q = process_command cfg (strip (lower q))
  /\ forall q',
      strip (lower q') = strip (lower q) ->
      process_command cfg q' = process_command cfg q
      /\ route (strip (lower q')) = route (strip (lower q)).
Proof.
  split.
  - apply process_command_same_branch. symmetry. apply normalize_idem.
  - intros q'. apply process_command_same_branch.
Qed.

(** ** The wake word *)

Lemma take_drop (n : nat) (s : string) : take n s ++ drop n s = s.
Proof.
  revert s. induction n as [|n IH]; intros [|c r]; cbn; auto. now rewrite IH.
Qed.

Lemma length_append (a b : string) :
  String.length (a ++ b) = (String.length a + String.length b)%nat.
Proof. induction a as [|x a IH]; cbn; auto. Qed.

Lemma length_take (n : nat) (s : string) :
  (n <= String.length s)%nat -> String.length (take n s) = n.
Proof.
  revert s. induction n as [|n IH]; intros [|c r]; cbn; auto; try lia.
  intros H. rewrite IH; lia.
Qed.

(** Whether [w] begins a text depends on the first [length w] characters. *)
Lemma startswith_app (w a b : string) :
  (String.length w <= String.length a)%nat ->
  startswith w (a ++ b) = startswith w a.
Proof.
  unfold startswith. revert a. induction w as [|x w IH]; intros a H.
  - now destruct a, b.
  - destruct a as [|y a]; cbn in H; [lia|]. cbn.
    destruct (ascii_dec x y); [|reflexivity]. apply IH. lia.
Qed.

Lemma startswith_self (w s : string) : startswith w (w ++ s) = true.
Proof.
  unfold startswith. induction w as [|x w IH]; cbn; [now destruct s|].
  destruct (ascii_dec x x); [exact IH|congruence].
Qed.

Lemma drop_app (w s : string) : drop (String.length w) (w ++ s) = s.
Proof. induction w as [|x w IH]; cbn; auto. Qed.

Lemma after_first_eq (sep s : string) :
  after_first sep s
  = if startswith sep s then Some (drop (String.length sep) s)
    else match s with
         | EmptyString => None
         | String _ r => after_first sep r
         end.
Proof. now destruct s. Qed.

Lemma after_first_occurrence (sep pre post : string) :
  sep <> "" -> occurs_before sep pre = false ->
  after_first sep (pre ++ sep ++ post) = Some post.
Proof.
  intros Hne. unfold occurs_before.
  set (y := take (String.length sep - 1) sep).
  assert (Ly : (String.length y = String.length sep - 1)%nat)
    by (apply length_take; lia).
  assert (Hs : sep ++ post = y ++ (drop (String.length sep - 1) sep ++ post)).
  { rewrite <- append_assoc. unfold y. now rewrite take_drop. }
  induction pre as [|c pre IH]; intros H.
  - cbn [append]. rewrite after_first_eq, startswith_self.
    now rewrite drop_app.
  - cbn [append contains] in H. apply orb_false_iff in H as [H1 H2].
    cbn [append]. rewrite after_first_eq.
    assert (P : startswith sep (String c (pre ++ sep ++ post)) = false).
    { rewrite Hs, <- append_assoc.
      change (String c ((pre ++ y) ++ drop (String.length sep - 1) sep ++ post))
        with (String c (pre ++ y) ++ (drop (String.length sep - 1) sep ++ post)).
      rewrite startswith_app; [exact H1|].
      cbn [String.length]. rewrite length_append, Ly.
      destruct sep; [now elim Hne|cbn; lia]. }
    rewrite P. now apply IH.
Qed.

Lemma contains_app (sep pre post : string) :
  contains sep (pre ++ sep ++ post) = true.
Proof.
  induction pre as [|c pre IH].
  - cbn [append]. destruct (sep ++ post) eqn:E; cbn [contains];
      rewrite <- E, startswith_self; reflexivity.
  - cbn [append contains]. rewrite IH. apply orb_true_r.
Qed.

Lemma is_empty_app (pre sep post : string) :
  sep <> "" -> is_empty (pre ++ sep ++ post) = false.
Proof.
  intros H. destruct pre; [|reflexivity]. destruct sep; [now elim H|reflexivity].
Qed.

Lemma runs_listen_iteration (cfg : Config) (tr : list Obs) (out : result unit) :
  runs (listen_iteration cfg) tr out ->
  (exists e tr',
      tr = Observed (Listen None 5) (Raised e) :: tr'
      /\ runs (on_listen_error e) tr' out)
  \/ (exists audio raw tr',
         tr = Observed (Listen None 5) (Ok audio)
              :: Observed (TranscribeGoogle audio) raw :: tr'
         /\ runs (catch (dispatch cfg (strip (lower raw))) on_listen_error) tr' out).
Proof.
  unfold listen_iteration, transcribe.
  cbn [runs bind catch trigger attempt USE_WHISPER_STT].
  intros (r & tr1 & -> & H). destruct r as [audio|e].
  - cbn [runs bind catch] in H. destruct H as (raw & tr2 & -> & H).
    right. exists audio, raw, tr2. auto.
  - cbn [bind catch] in H. left. exists e, tr1. auto.
Qed.

(** C9: in the loop, a transcription that has the wake word hands on the
    text after the first occurrence of the wake word, stripped; a
    transcription without the wake word starts nothing: the turn of the
    loop ends after the capture and the transcription. *)
Theorem wake_word_candidate (cfg : Config) :
  (forall pre post,
      occurs_before WAKE_WORD pre = false ->
      candidate_query (pre ++ WAKE_WORD ++ post) = Ret (strip post)
      /\ dispatch cfg (pre ++ WAKE_WORD ++ post) = on_wake cfg (strip post)
      /\ (is_empty (strip post) = false ->
          dispatch cfg (pre ++ WAKE_WORD ++ post) = handle_query cfg (strip post)))
  /\ (forall said, contains WAKE_WORD said = false -> dispatch cfg said = Ret tt)
  /\ (forall tr out,
         runs (listen_iteration cfg) tr out ->
         (exists e tr',
             tr = Observed (Listen None 5) (Raised e) :: tr'
             /\ runs (on_listen_error e) tr' out)
         \/ (exists audio raw tr',
                tr = Observed (Listen None 5) (Ok audio)
                     :: Observed (TranscribeGoogle audio) raw :: tr'
                /\ runs (catch (dispatch cfg (strip (lower raw))) on_listen_error)
                     tr' out
                /\ (contains WAKE_WORD (strip (lower raw)) = false ->
                    tr' = [] /\ out = Ok tt))).
Proof.
  assert (N : forall said, contains WAKE_WORD said = false -> dispatch cfg said = Ret tt).
  { intros said H. unfold dispatch. rewrite H. now destruct (is_empty said). }
  split; [|split; [exact N|]].
  - intros pre post H.
    assert (W : WAKE_WORD <> "") by discriminate.
    assert (C : candidate_query (pre ++ WAKE_WORD ++ post) = Ret (strip post)).
    { unfold candidate_query. now rewrite (after_first_occurrence _ _ _ W H). }
    assert (D : dispatch cfg (pre ++ WAKE_WORD ++ post) = on_wake cfg (strip post)).
    { unfold dispatch.
      rewrite (is_empty_app pre WAKE_WORD post W), contains_app, C. reflexivity. }
    repeat split; auto.
    intros E. rewrite D. unfold on_wake. rewrite E. cbn [bind]. now rewrite E.
  - intros tr out H. apply runs_listen_iteration in H.
    destruct H as [H|(audio & raw & tr' & -> & H)]; [now left|].
    right. exists audio, raw, tr'.
    split; [reflexivity|]. split; [exact H|].
    intros C. rewrite (N _ C) in H. exact H.
Qed.

Lemma wake_word_candidate_witness :
  dispatch cfg0 ("hey " ++ WAKE_WORD ++ " what time is it, leo")
  = handle_query cfg0 (strip " what time is it, leo")
  /\ dispatch cfg0 "hello there" = Ret tt.
Proof.
  destruct (wake_word_candidate cfg0) as [H1 H2]. split.
  - destruct (H1 "hey " " what time is it, leo") as (_ & _ & H).
    + vm_compute. reflexivity.
    + apply H. vm_compute. reflexivity.
  - apply H2. vm_compute. reflexivity.
Defined.

(** ** Missing search term *)

Lemma process_command_file_search (cfg : Config) (q : string) :
  route (strip (lower q)) = FileSearch ->
  process_command cfg q = file_search cfg (strip (lower q)).
Proof. intros H. now rewrite process_command_table, H. Qed.

(** C7: a file-search command whose search term, once the trigger phrases
    and the white space around are removed, has fewer than two characters
    is answered at once with the missing-parameter response; no event is
    performed, so the file system is not searched. *)
Theorem short_search_term (cfg : Config) (q : string) :
  route (strip (lower q)) = FileSearch ->
  (String.length (search_terms_of (strip (lower q))) < 2)%nat ->
  process_command cfg q
  = Ret "Please specify a file name, keyword, or part of it to search."
  /\ forall tr out,
      runs (process_command cfg q) tr out ->
      tr = [] /\ out = Ok "Please specify a file name, keyword, or part of it to search.".
Proof.
  intros R L.
  assert (E : process_command cfg q
              = Ret "Please specify a file name, keyword, or part of it to search.").
  { rewrite (process_command_file_search cfg q R). unfold file_search. cbv zeta.
    apply Nat.ltb_lt in L. rewrite L, orb_true_r. reflexivity. }
  split; [exact E|]. intros tr out. rewrite E. cbn [runs]. auto.
Qed.

Lemma short_search_term_witness :
  process_command cfg0 "Find file X"
  = Ret "Please specify a file name, keyword, or part of it to search.".
Proof.
  apply (proj1 (short_search_term cfg0 "Find file X"
                  ltac:(vm_compute; reflexivity) ltac:(vm_compute; lia))).
Defined.

(** ** Runs *)

Ltac run_cbn H :=
  cbn [runs bind catch trigger attempt is_empty negb andb USE_DEEPGRAM_TTS
       USE_WHISPER_STT] in H.

(** Follow a run hypothesis through the program, one event at a time,
    splitting on every answer the program inspects. *)
Ltac run_inv H :=
  repeat (run_cbn H;
          match type of H with
          | exists _, _ =>
              let x := fresh "x" in
              let tr := fresh "tr" in
              destruct H as (x & tr & ? & H); subst
          | _ = _ /\ _ = _ => destruct H as [? ?]; subst
          | runs (match ?x with _ => _ end) _ _ => destruct x eqn:?
          | runs (if ?c then _ else _) _ _ => destruct c eqn:?
          | context [match ?x with _ => _ end] => is_var x; destruct x
          | context [if ?c then _ else _] => destruct c eqn:?
          | context [match ?x with _ => _ end] => destruct x eqn:?
          end).

(** ** Mute and unmute *)

Lemma contains_unmute_not_mute_rule (q : string) :
  contains "unmute" q = true -> rule_matches Mute q = false.
Proof. intros H. cbn [rule_matches]. rewrite H. apply andb_false_r. Qed.

(** C4: a command that has "unmute" in it and matches no rule before the
    mute rule is routed to the unmute action, never to the mute action:
    the mute rule, which comes first, does not match it. *)
Theorem unmute_not_mute (cfg : Config) (q : string) :
  contains "unmute" (strip (lower q)) = true ->
  (forall r, (rule_index r < rule_index Mute)%nat ->
             rule_matches r (strip (lower q)) = false) ->
  (rule_index Mute < rule_index Unmute)%nat
  /\ rule_matches Mute (strip (lower q)) = false
  /\ route (strip (lower q)) = Unmute
  /\ process_command cfg q = control_volume "unmute"
  /\ forall tr out,
      runs (process_command cfg q) tr out ->
      (tr = [Observed GetEndpointVolume false]
       /\ out = Ok "Volume control not supported.")
      \/ (tr = [Observed GetEndpointVolume true; Observed (SetMute false) (Ok tt)]
          /\ out = Ok "Volume unmute.")
      \/ (exists e,
             tr = [Observed GetEndpointVolume true; Observed (SetMute false) (Raised e)]
             /\ out = Ok ("Volume error: " ++ exn_str e)).
Proof.
  intros U B.
  assert (M : rule_matches Mute (strip (lower q)) = false)
    by now apply contains_unmute_not_mute_rule.
  assert (R : route (strip (lower q)) = Unmute).
  { symmetry. apply (selected_unique (strip (lower q))); [|apply route_selected].
    split; [exact U|]. intros r Hr.
    assert (C : (rule_index r < rule_index Mute)%nat \/ r = Mute).
    { destruct r; vm_compute in Hr; vm_compute; try lia; auto. }
    destruct C as [C| ->]; auto. }
  assert (P : process_command cfg q = control_volume "unmute")
    by now rewrite process_command_table, R.
  split; [vm_compute; lia|]. split; [exact M|]. split; [exact R|].
  split; [exact P|].
  intros tr out. rewrite P. unfold control_volume.
  cbn [String.eqb Ascii.eqb Bool.eqb]. intros H. run_inv H.
  - destruct x; [discriminate|]. now left.
  - destruct x; [|discriminate]. destruct a. right. now left.
  - destruct x; [|discriminate]. right. right. now exists e.
Qed.

Lemma unmute_not_mute_witness :
  process_command cfg0 " Please UNMUTE " = control_volume "unmute".
Proof.
  refine (proj1 (proj2 (proj2 (proj2
            (unmute_not_mute cfg0 " Please UNMUTE " _ _))))).
  - vm_compute. reflexivity.
  - intros r Hr. destruct r; try (vm_compute; reflexivity);
      vm_compute in Hr; lia.
Defined.

(** ** Disambiguation *)

Lemma in_range_spec (sel max_index : Z) :
  in_range sel max_index = true -> 0 <= sel <= max_index.
Proof. unfold in_range. intros H. apply andb_true_iff in H. lia. Qed.

Ltac count_events :=
  cbn [count filter is_listen is_input is_os_open is_voice List.length].

Lemma get_user_selection_outcomes (cfg : Config) (max_index : Z)
    (tr : list Obs) (out : result Z) :
  runs (get_user_selection_via_voice_or_input cfg max_index) tr out ->
  exists sel,
    out = Ok sel /\ (sel = -1 \/ 0 <= sel <= max_index)
    /\ (count is_listen tr <= 1)%nat /\ (count is_input tr <= 1)%nat
    /\ count is_os_open tr = O.
Proof.
  unfold get_user_selection_via_voice_or_input, speak_and_print,
    _sa_play_wav_bytes, _toast,
    _tts_local_pyttsx3, transcribe.
  intros H. run_inv H;
    (eexists; split; [reflexivity|]; split;
     [ first [ left; reflexivity | right; apply in_range_spec; assumption ]
     | count_events; repeat split; lia ]).
Qed.

Lemma runs_open_file (path : string) (tr : list Obs) (out : result string) :
  runs (open_file path) tr out ->
  exists r,
    tr = [Observed (OsOpen path) r]
    /\ out = Ok match r with
                | Ok _ => "Opening: " ++ path
                | Raised e => "Failed to open " ++ path ++ ": " ++ exn_str e
                end.
Proof.
  unfold open_file. intros H. run_inv H.
  - exists (Ok a). auto.
  - exists (Raised e). auto.
Qed.

Lemma runs_after_selection_cancel (matches : list string)
    (tr : list Obs) (out : result string) :
  runs (after_selection matches 0) tr out ->
  tr = [] /\ out = Ok "Cancelled. No file opened.".
Proof. cbn. auto. Qed.

Lemma runs_after_selection_invalid (matches : list string) (sel : Z)
    (tr : list Obs) (out : result string) :
  sel < 0 \/ Z.of_nat (List.length matches) < sel ->
  runs (after_selection matches sel) tr out ->
  tr = [] /\ out = Ok "Invalid choice. No file opened.".
Proof.
  intros O. unfold after_selection.
  destruct (Z.eqb_spec sel 0) as [->|_]; [lia|].
  destruct (Z.leb_spec 1 sel), (Z.leb_spec sel (Z.of_nat (List.length matches)));
    cbn [andb runs]; auto; lia.
Qed.

Lemma runs_after_selection_valid (matches : list string) (sel : Z) :
  1 <= sel <= Z.of_nat (List.length matches) ->
  exists chosen,
    nth_error matches (Z.to_nat (sel - 1)) = Some chosen
    /\ forall tr out,
        runs (after_selection matches sel) tr out ->
        exists r, tr = [Observed (OsOpen chosen) r]
                  /\ out = Ok ("Opened: " ++ chosen).
Proof.
  intros I. destruct (nth_error_in_range matches sel I) as [chosen E].
  exists chosen. split; [exact E|]. intros tr out. unfold after_selection.
  destruct (Z.eqb_spec sel 0) as [->|_]; [lia|].
  destruct (Z.leb_spec 1 sel); [|lia].
  destruct (Z.leb_spec sel (Z.of_nat (List.length matches))); [|lia].
  cbn [andb]. rewrite E. intros Hrun. apply runs_bind in Hrun.
  destruct Hrun as [(tr1 & a & tr2 & H1 & [-> ->] & ->)|(e & H1 & _)];
    apply runs_open_file in H1; destruct H1 as (r & -> & H1).
  - exists r. auto.
  - discriminate.
Qed.

(** C6: the selection after the prompt is -1 or lies in [0, N], and it is
    obtained with at most one capture and at most one typed line, without
    opening a file; selection 0 gives the cancellation response and opens
    nothing; a selection below 0 (such as -1) or above N gives the
    invalid-choice response and opens nothing; a selection in [1, N] opens
    the candidate at that 1-based position and nothing else. *)
Theorem selection_outcomes (cfg : Config) (matches : list string) :
  (forall tr out,
      runs (get_user_selection_via_voice_or_input cfg
              (Z.of_nat (List.length matches))) tr out ->
      exists sel,
        out = Ok sel
        /\ (sel = -1 \/ 0 <= sel <= Z.of_nat (List.length matches))
        /\ (count is_listen tr <= 1)%nat /\ (count is_input tr <= 1)%nat
        /\ count is_os_open tr = O)
  /\ (forall tr out,
         runs (after_selection matches 0) tr out ->
         tr = [] /\ out = Ok "Cancelled. No file opened.")
  /\ (forall sel tr out,
         sel < 0 \/ Z.of_nat (List.length matches) < sel ->
         runs (after_selection matches sel) tr out ->
         tr = [] /\ out = Ok "Invalid choice. No file opened.")
  /\ (forall sel,
         1 <= sel <= Z.of_nat (List.length matches) ->
         exists chosen,
           nth_error matches (Z.to_nat (sel - 1)) = Some chosen
           /\ forall tr out,
               runs (after_selection matches sel) tr out ->
               exists r, tr = [Observed (OsOpen chosen) r]
                         /\ out = Ok ("Opened: " ++ chosen)).
Proof.
  split; [intros tr out; apply get_user_selection_outcomes|].
  split; [apply runs_after_selection_cancel|].
  split; [apply runs_after_selection_invalid|].
  apply runs_after_selection_valid.
Qed.

Lemma selection_outcomes_witness :
  exists chosen,
    nth_error ["a.txt"; "b.txt"; "c.txt"] (Z.to_nat (2 - 1)) = Some chosen
    /\ forall tr out,
        runs (after_selection ["a.txt"; "b.txt"; "c.txt"] 2) tr out ->
        exists r, tr = [Observed (OsOpen chosen) r]
                  /\ out = Ok ("Opened: " ++ chosen).
Proof.
  refine (proj2 (proj2 (proj2
            (selection_outcomes cfg0 ["a.txt"; "b.txt"; "c.txt"]))) 2 _).
  cbn. lia.
Defined.

(** ** Search results *)

Lemma runs_search_files (cfg : Config) (keyword : string)
    (tr : list Obs) (out : result (list string)) :
  runs (search_files cfg keyword) tr out ->
  exists home walk,
    tr = [Observed ExpandUserHome home; Observed (Walk home) walk]
    /\ out = Ok (walk_loop cfg (lower keyword) walk []).
Proof. unfold search_files. intros H. run_inv H. eauto. Qed.

Lemma runs_after_search_none (cfg : Config) (term : string)
    (tr : list Obs) (out : result string) :
  runs (after_search cfg term []) tr out ->
  tr = [] /\ out = Ok ("No files found matching '" ++ term ++ "'.").
Proof. cbn. auto. Qed.

Lemma runs_after_search_one (cfg : Config) (term m : string)
    (tr : list Obs) (out : result string) :
  runs (after_search cfg term [m]) tr out ->
  exists r,
    tr = [Observed (OsOpen m) r]
    /\ out = Ok ("Found and "
                 ++ match r with
                    | Ok _ => "Opening: " ++ m
                    | Raised e => "Failed to open " ++ m ++ ": " ++ exn_str e
                    end).
Proof.
  cbn [after_search]. intros H. apply runs_bind in H.
  destruct H as [(tr1 & a & tr2 & H1 & [-> ->] & ->)|(e & H1 & _)];
    apply runs_open_file in H1; destruct H1 as (r & -> & H1).
  - injection H1 as ->. exists r. auto.
  - discriminate.
Qed.

Lemma runs_after_search_many (cfg : Config) (term : string)
    (matches : list string) (tr : list Obs) (out : result string) :
  (1 < List.length matches)%nat ->
  runs (after_search cfg term matches) tr out ->
  exists tr1 sel tr2,
    runs (get_user_selection_via_voice_or_input cfg
            (Z.of_nat (List.length matches))) tr1 (Ok sel)
    /\ runs (after_selection matches sel) tr2 out
    /\ tr = (Observed (Print (nl ++ join_lines ("Files found:" :: numbered 1 matches)
                              ++ nl)) tt :: tr1 ++ tr2)%list.
Proof.
  destruct matches as [|m [|m' ms]]; cbn [List.length]; try lia. intros _.
  cbn [after_search bind trigger runs].
  intros (u & tr' & -> & H). destruct u.
  apply runs_bind in H.
  destruct H as [(tr1 & sel & tr2 & H1 & H2 & ->)|(e & H1 & _)].
  - exists tr1, sel, tr2. auto.
  - apply runs_returns in H1 as [a Ha];
      [discriminate|apply returns_get_user_selection].
Qed.

(** C5: a file-search command with a search term of two characters or more
    searches the files and then, with no match, answers that nothing was
    found for the term; with one match, opens it at once (the only event is
    the opening); with more than one, prints the list and asks for a
    selection. *)
Theorem search_result_outcomes (cfg : Config) (q : string) :
  route (strip (lower q)) = FileSearch ->
  (2 <= String.length (search_terms_of (strip (lower q))))%nat ->
  (forall tr out,
      runs (process_command cfg q) tr out ->
      exists tr1 matches tr2,
        runs (search_files cfg (search_terms_of (strip (lower q)))) tr1 (Ok matches)
        /\ runs (after_search cfg (search_terms_of (strip (lower q))) matches) tr2 out
        /\ tr = (tr1 ++ tr2)%list)
  /\ (forall tr out,
         runs (after_search cfg (search_terms_of (strip (lower q))) []) tr out ->
         tr = []
         /\ out = Ok ("No files found matching '"
                      ++ search_terms_of (strip (lower q)) ++ "'."))
  /\ (forall m tr out,
         runs (after_search cfg (search_terms_of (strip (lower q))) [m]) tr out ->
         exists r,
           tr = [Observed (OsOpen m) r]
           /\ out = Ok ("Found and "
                        ++ match r with
                           | Ok _ => "Opening: " ++ m
                           | Raised e => "Failed to open " ++ m ++ ": " ++ exn_str e
                           end))
  /\ (forall matches tr out,
         (1 < List.length matches)%nat ->
         runs (after_search cfg (search_terms_of (strip (lower q))) matches) tr out ->
         exists tr1 sel tr2,
           runs (get_user_selection_via_voice_or_input cfg
                   (Z.of_nat (List.length matches))) tr1 (Ok sel)
           /\ runs (after_selection matches sel) tr2 out
           /\ tr = (Observed (Print (nl ++ join_lines ("Files found:" :: numbered 1 matches)
                                     ++ nl)) tt :: tr1 ++ tr2)%list).
Proof.
  intros R L.
  split; [|split; [apply runs_after_search_none|
                   split; [apply runs_after_search_one|apply runs_after_search_many]]].
  intros tr out. rewrite (process_command_file_search cfg q R).
  unfold file_search. cbv zeta.
  assert (E : is_empty (search_terms_of (strip (lower q)))
              || (String.length (search_terms_of (strip (lower q))) <? 2)%nat = false).
  { apply orb_false_iff. split.
    - destruct (search_terms_of (strip (lower q))); [cbn in L; lia|reflexivity].
    - apply Nat.ltb_ge. exact L. }
  rewrite E. intros H. apply runs_bind in H.
  destruct H as [(tr1 & a & tr2 & H1 & H2 & ->)|(e & H1 & _)].
  - exists tr1, a, tr2. auto.
  - apply runs_search_files in H1 as (home & walk & _ & H1). discriminate.
Qed.

Lemma search_result_outcomes_witness :
  exists tr1 matches tr2,
    runs (search_files cfg0 (search_terms_of (strip (lower "Find report"))))
      tr1 (Ok matches)
    /\ runs (after_search cfg0 (search_terms_of (strip (lower "Find report"))) matches)
         tr2 (Ok "No files found matching 'report'.")
    /\ [Observed ExpandUserHome "/home/leo"; Observed (Walk "/home/leo") []]
       = (tr1 ++ tr2)%list.
Proof.
  refine (proj1 (search_result_outcomes cfg0 "Find report" _ _) _ _ _).
  - vm_compute. reflexivity.
  - vm_compute. lia.
  - apply (exec_is_run blank_world _ tt tt). vm_compute. reflexivity.
Defined.

(** ** Output *)




(** C8 fails on the code, in two ways.  An empty response is printed on the
    two console lines and nothing else: [speak_and_print] returns at once,
    no table, no notification, no voice.  Here the query "hm" goes to the
    conversational fallback, which answers with a blank text; stripped, the
    response is empty.  And a response given to Deepgram is not spoken when
    the playback fails: here simpleaudio is missing and the program asked
    to open the temporary file raises; [_sa_play_wav_bytes] swallows the
    exception, and [speak_and_print] returns without the local engine. *)
Theorem response_not_always_spoken :
  runs (handle_query cfg0 "hm")
    [Observed (GeminiSend "hm") (Ok (Some " "));
     Observed (Print "User: hm") tt;
     Observed (Print "Leo: ") tt] (Ok tt)
  /\ count is_voice
       [Observed (GeminiSend "hm") (Ok (Some " "));
        Observed (Print "User: hm") tt;
        Observed (Print "Leo: ") tt] = O
  /\ ~ (forall cfg query tr,
          runs (handle_query cfg query) tr (Ok tt) ->
          (0 < count is_voice tr)%nat)
  /\ runs (handle_query cfg_deepgram "hello")
       (display_part "hello" "Hello! How can I assist you?" noon noon
        ++ [Observed (DeepgramTTS "Hello! How can I assist you?") (Ok "RIFF");
            Observed (WriteTempWav "RIFF") (Ok "/tmp/leo.wav");
            Observed (StartAudioFile "/tmp/leo.wav")
              (Raised (OtherException "no player"))])%list
       (Ok tt)
  /\ count is_local_tts
       (display_part "hello" "Hello! How can I assist you?" noon noon
        ++ [Observed (DeepgramTTS "Hello! How can I assist you?") (Ok "RIFF");
            Observed (WriteTempWav "RIFF") (Ok "/tmp/leo.wav");
            Observed (StartAudioFile "/tmp/leo.wav")
              (Raised (OtherException "no player"))])%list = O.
Proof.
  assert (R : runs (handle_query cfg0 "hm")
                [Observed (GeminiSend "hm") (Ok (Some " "));
                 Observed (Print "User: hm") tt;
                 Observed (Print "Leo: ") tt] (Ok tt)).
  { apply (exec_is_run blank_world _ tt tt). vm_compute. reflexivity. }
  split; [exact R|]. split; [reflexivity|]. split.
  - intros C. specialize (C cfg0 "hm" _ R). vm_compute in C. lia.
  - split; [|reflexivity].
    apply (exec_is_run deepgram_world _ tt tt). vm_compute. reflexivity.
Qed.

(** ** Examples *)

Example parse_two_3 : parse_spoken_number "two 3" = 3.
Proof. reflexivity. Qed.

Example parse_second_or_third : parse_spoken_number "second or third" = 2.
Proof. reflexivity. Qed.

Example parse_blank : parse_spoken_number "   " = -1.
Proof. reflexivity. Qed.

Example split_two_three :
  re_split_nonword "  two, three " = [""; "two"; "three"; ""].
Proof. reflexivity. Qed.

Example int_literals :
  map py_int ["+5"; "1_0"; "1__0"; "_1"; " 12 "; "-0"; "1_"; ""; "007"]
  = [Some 5; Some 10; None; None; Some 12; Some 0; None; None; Some 7].
Proof. reflexivity. Qed.

Example int_digit_limit :
  map (fun n => is_some (py_int (repeat_char "1" n))) [4300; 4301]%nat
  = [true; false].
Proof. vm_compute. reflexivity. Qed.

Example replace_occurrences :
  map (fun s => replace (fst s) "" (snd s))
      [("bc", "abcabc"); ("aa", "aaa"); ("find", "fifindnd")]
  = ["aa"; "a"; "find"].
Proof. reflexivity. Qed.

Example weather_city :
  map search_weather_city
      ["weather in  paris"; "what is the weather"; "weather of x y"]
  = [Some "paris"; None; Some "x y"].
Proof. reflexivity. Qed.

Example volume_patterns :
  (search_bounded "volume up" "a volume up!", search_bounded "volume up" "volume upx",
   search_abs_volume "set volume volume 1234", search_abs_volume "volume")
  = (true, false, Some "123", None).
Proof. reflexivity. Qed.

Example routes :
  map route ["hello"; "search wikipedia for cats"; "search file notes";
             "volume up"; "mute"; "unmute"; "set volume 45"; "find notes";
             "tell me a story"]
  = [Greeting; Wikipedia; WebSearch; VolumeUp; Mute; Unmute; VolumeAbsolute;
     FileSearch; Fallback].
Proof. vm_compute. reflexivity. Qed.

(** * Further properties *)

(** ** The number parser on any text *)

Lemma lower_strip_idem (s : string) :
  lower (strip (lower (strip s))) = lower (strip s).
Proof.
  rewrite (lower_strip s), (lower_strip (strip (lower s))).
  apply normalize_idem.
Qed.

(** X1: letter case and the white space around the text do not change the
    number parsed. *)
Theorem parse_spoken_number_normalizes (s : string) :
  parse_spoken_number (lower s) = parse_spoken_number s
  /\ parse_spoken_number (strip s) = parse_spoken_number s
  /\ parse_spoken_number (lower (strip s)) = parse_spoken_number s.
Proof.
  assert (L : lower (strip (lower s)) = lower (strip s)).
  { rewrite (lower_strip (lower s)), lower_idem. symmetry. apply lower_strip. }
  assert (S : lower (strip (strip s)) = lower (strip s)).
  { unfold strip. now rewrite strip_by_idem. }
  unfold parse_spoken_number.
  rewrite L, S, lower_strip_idem. auto.
Qed.

Lemma scan_tokens_range (toks : list string) :
  scan_tokens toks = -1 \/ 0 <= scan_tokens toks <= 10.
Proof.
  induction toks as [|t toks IH]; cbn [scan_tokens]; [now left|].
  destruct (dict_get WORD_NUMS t) as [v|] eqn:E; [|exact IH].
  right. now apply (WORD_NUMS_range t).
Qed.

(** X2: the parser answers -1 or a number that is not negative; on a text
    without digits the number is 10 at most. *)
Theorem parse_spoken_number_range (s : string) :
  (parse_spoken_number s = -1 \/ 0 <= parse_spoken_number s)
  /\ (has_digit s = false -> parse_spoken_number s <= 10).
Proof.
  destruct (has_digit s) eqn:D.
  - destruct (parse_spoken_number_with_digit s D)
      as (pre & run & post & _ & _ & _ & Hr & _ & ->).
    split; [|discriminate].
    destruct (int_max_str_digits <? String.length run)%nat.
    + pose proof (scan_tokens_range (re_split_nonword (lower (strip s)))) as R.
      lia.
    + right. now apply decimal_from_nonneg.
  - assert (Hs : search_digits (lower (strip s)) = None).
    { rewrite search_digits_normalized. now apply search_digits_none. }
    assert (P : parse_spoken_number s = -1
                \/ parse_spoken_number s
                   = scan_tokens (re_split_nonword (lower (strip s)))).
    { unfold parse_spoken_number. cbv zeta. rewrite Hs.
      destruct (is_empty (lower (strip s))); auto. }
    pose proof (scan_tokens_range (re_split_nonword (lower (strip s)))) as R.
    split; [|intros _]; destruct P as [-> | ->]; lia.
Qed.

(** ** What [search_files] returns *)

Lemma firstn_short {A : Type} (n : nat) (l : list A) :
  (List.length l <= n)%nat -> firstn n l = l.
Proof. apply firstn_all2. Qed.

Lemma in_firstn {A : Type} (n : nat) (l : list A) (x : A) :
  In x (firstn n l) -> In x l.
Proof.
  revert l. induction n as [|n IH]; intros [|a l]; cbn; try tauto.
  intros [H|H]; auto.
Qed.

Lemma firstn_app_full {A : Type} (n : nat) (l l' : list A) :
  (n <= List.length l)%nat -> firstn n (l ++ l')%list = firstn n l.
Proof.
  intros H. rewrite firstn_app.
  replace (n - List.length l)%nat with O by lia. cbn. apply app_nil_r.
Qed.

(** The inner loop, as long as the limit was not reached before it. *)
Lemma scan_dir_spec (cfg : Config) (keyword root : string) (files : list string) :
  forall matches,
    (List.length matches < max_results)%nat ->
    let found := (matches ++ map (path_join cfg root)
                                 (filter (file_matches keyword) files))%list in
    (scan_dir cfg (lower keyword) root files matches = (found, false)
     /\ (List.length found < max_results)%nat)
    \/ (scan_dir cfg (lower keyword) root files matches
        = (firstn max_results found, true)
        /\ (max_results <= List.length found)%nat).
Proof.
  induction files as [|fname files IH]; intros matches L; cbn zeta.
  - cbn [scan_dir filter map]. rewrite app_nil_r. now left.
  - cbn [scan_dir filter]. fold (file_matches keyword fname).
    destruct (file_matches keyword fname) eqn:M.
    + cbn [map].
      replace (matches ++ path_join cfg root fname
                 :: map (path_join cfg root) (filter (file_matches keyword) files))%list
        with ((matches ++ [path_join cfg root fname])
                ++ map (path_join cfg root) (filter (file_matches keyword) files))%list
        by now rewrite <- app_assoc.
      destruct (Nat.leb_spec max_results
                  (List.length (matches ++ [path_join cfg root fname])%list)) as [G|G].
      * right. rewrite length_app in G. cbn [List.length] in G.
        split.
        -- rewrite firstn_app_full by (rewrite length_app; cbn; lia).
           rewrite firstn_short; [reflexivity|rewrite length_app; cbn; lia].
        -- rewrite !length_app. cbn [List.length]. lia.
      * apply IH. exact G.
    + destruct (Nat.leb_spec max_results (List.length matches)) as [G|G]; [lia|].
      apply IH. exact L.
Qed.

Lemma walk_loop_spec (cfg : Config) (keyword : string)
    (walk : list (string * list string)) :
  forall matches,
    (List.length matches < max_results)%nat ->
    walk_loop cfg (lower keyword) walk matches
    = firstn max_results (matches ++ all_matches cfg keyword walk)%list.
Proof.
  induction walk as [|[root files] walk IH]; intros matches L.
  - cbn [walk_loop all_matches flat_map]. rewrite app_nil_r.
    symmetry. apply firstn_short. unfold max_results in *. lia.
  - cbn [walk_loop all_matches flat_map fst snd].
    fold (all_matches cfg keyword walk). rewrite app_assoc.
    destruct (scan_dir_spec cfg keyword root files matches L) as [[E G]|[E G]];
      cbv zeta in E, G; rewrite E.
    + apply IH. exact G.
    + symmetry. apply firstn_app_full. exact G.
Qed.

Lemma search_files_result (cfg : Config) (keyword : string)
    (tr : list Obs) (out : result (list string)) :
  runs (search_files cfg keyword) tr out ->
  exists home walk,
    tr = [Observed ExpandUserHome home; Observed (Walk home) walk]
    /\ out = Ok (firstn max_results (all_matches cfg keyword walk)).
Proof.
  intros H. apply runs_search_files in H as (home & walk & -> & ->).
  exists home, walk. split; [reflexivity|].
  now rewrite (walk_loop_spec cfg keyword walk []) by (unfold max_results; cbn; lia).
Qed.

(** X3: [search_files] looks up the home directory, walks it once and
    returns the first twenty paths, in the order of the walk, of the files
    whose lower-cased name has the lower-cased keyword in it. *)
Theorem search_files_first_matches (cfg : Config) (keyword : string)
    (tr : list Obs) (out : result (list string)) :
  runs (search_files cfg keyword) tr out ->
  exists home walk,
    tr = [Observed ExpandUserHome home; Observed (Walk home) walk]
    /\ out = Ok (firstn 20 (all_matches cfg keyword walk)).
Proof. apply search_files_result. Qed.

Lemma search_files_first_matches_witness :
  exists home walk,
    [Observed ExpandUserHome "/home/leo";
     Observed (Walk "/home/leo")
       [("/home/leo", ["Notes.TXT"; "a.png"]); ("/home/leo/doc", ["old notes.md"])]]
    = [Observed ExpandUserHome home; Observed (Walk home) walk]
    /\ Ok ["/home/leo/Notes.TXT"; "/home/leo/doc/old notes.md"]
       = Ok (firstn 20 (all_matches cfg0 "NOTES" walk)).
Proof.
  apply (search_files_first_matches cfg0 "NOTES").
  cbn. repeat first [reflexivity | eexists | split].
Defined.

(** X4: [search_files] never returns more than twenty paths, and each path
    it returns joins a directory of the walk with one of its files whose
    name has the keyword in it, letter case apart. *)
Theorem search_files_sound (cfg : Config) (keyword : string)
    (tr : list Obs) (paths : list string) :
  runs (search_files cfg keyword) tr (Ok paths) ->
  (List.length paths <= 20)%nat
  /\ forall path,
      In path paths ->
      exists home walk root files fname,
        In (Observed (Walk home) walk) tr
        /\ In (root, files) walk /\ In fname files
        /\ contains (lower keyword) (lower fname) = true
        /\ path = path_join cfg root fname.
Proof.
  intros H. apply search_files_result in H as (home & walk & -> & E).
  assert (E' : paths = firstn max_results (all_matches cfg keyword walk))
    by congruence.
  clear E. subst paths. split; [apply firstn_le_length|].
  intros path I. apply in_firstn in I. unfold all_matches in I.
  apply in_flat_map in I as ([root files] & Id & I). cbn [fst snd] in I.
  apply in_map_iff in I as (fname & <- & I). apply filter_In in I as [If M].
  exists home, walk, root, files, fname. cbn [In]. auto 10.
Qed.

Lemma search_files_sound_witness :
  (List.length ["/home/leo/Notes.TXT"] <= 20)%nat.
Proof.
  refine (proj1 (search_files_sound cfg0 "NOTES"
                   [Observed ExpandUserHome "/home/leo";
                    Observed (Walk "/home/leo") [("/home/leo", ["Notes.TXT"; "a.png"])]]
                   ["/home/leo/Notes.TXT"] _)).
  cbn. repeat first [reflexivity | eexists | split].
Defined.

(** ** The table of [_ascii_table] *)

Lemma length_repeat_char (c : ascii) (n : nat) :
  String.length (repeat_char c n) = n.
Proof. induction n as [|n IH]; cbn; auto. Qed.

Lemma length_ljust (w : nat) (s : string) :
  String.length (ljust w s) = Nat.max w (String.length s).
Proof. unfold ljust. rewrite length_append, length_repeat_char. lia. Qed.

Lemma startswith_nl (c : ascii) (r : string) :
  startswith nl (String c r) = negb (not_lf c).
Proof.
  unfold startswith, nl, not_lf. cbn [prefix].
  replace (prefix "" r) with true by now destruct r.
  destruct (ascii_dec (ascii_of_N 10) c) as [<-|N]; [reflexivity|].
  symmetry. apply negb_false_iff, negb_true_iff, N.eqb_neq.
  intros E. apply N. unfold code in E. rewrite <- E.
  now rewrite ascii_N_embedding.
Qed.

Lemma replace_lf_no_lf (s : string) : all_chars not_lf (replace nl " " s) = true.
Proof.
  unfold replace. replace (is_empty nl) with false by reflexivity.
  induction s as [|c r IH]; [reflexivity|].
  cbn [replace_from]. rewrite startswith_nl.
  destruct (not_lf c) eqn:N; cbn [negb].
  - cbn [all_chars]. now rewrite N, IH.
  - replace (String.length nl - 1)%nat with O by reflexivity.
    cbn [append all_chars]. exact IH.
Qed.

Lemma ascii_table_lines (now : Clock) (answer : string) :
  _ascii_table now answer
  = join_lines
      (table_lines now (answer_cell answer)
         (Nat.max (String.length (time_str now))
            (Nat.max (String.length (date_str now))
               (Nat.max (String.length (answer_cell answer)) 0)))).
Proof. reflexivity. Qed.

Lemma ascii_table_cell_width (now : Clock) (answer : string) :
  _ascii_table now answer
  = join_lines (table_lines now (answer_cell answer) (cell_width now answer)).
Proof.
  rewrite ascii_table_lines. unfold cell_width. now rewrite Nat.max_0_r.
Qed.

Lemma all_chars_repeat_char (p : ascii -> bool) (c : ascii) (n : nat) :
  p c = true -> all_chars p (repeat_char c n) = true.
Proof. intros H. induction n as [|n IH]; cbn; [reflexivity|]. now rewrite H. Qed.

Lemma all_chars_ljust (p : ascii -> bool) (w : nat) (s : string) :
  p " "%char = true -> all_chars p s = true -> all_chars p (ljust w s) = true.
Proof.
  intros Hsp Hs. unfold ljust. rewrite all_chars_app, Hs.
  now apply all_chars_repeat_char.
Qed.

(** X5: the table is five lines of one and the same width: the widest of
    the time, the date and the answer shown, and thirteen characters of
    frame.  The lines are the frame, the time, the date, the answer shown
    and the frame again, and none of them has a line feed in it when the
    time and the date have none. *)
Theorem ascii_table_rectangular (now : Clock) (answer : string) :
  _ascii_table now answer
  = join_lines (table_lines now (answer_cell answer) (cell_width now answer))
  /\ List.length (table_lines now (answer_cell answer) (cell_width now answer))
     = 5%nat
  /\ Forall (fun line => String.length line = (cell_width now answer + 13)%nat)
       (table_lines now (answer_cell answer) (cell_width now answer))
  /\ cell_width now answer
     = Nat.max (String.length (time_str now))
         (Nat.max (String.length (date_str now))
            (String.length (answer_cell answer)))
  /\ (all_chars not_lf (time_str now) = true ->
      all_chars not_lf (date_str now) = true ->
      Forall (fun line => all_chars not_lf line = true)
        (table_lines now (answer_cell answer) (cell_width now answer))).
Proof.
  split; [apply ascii_table_cell_width|]. split; [reflexivity|].
  split; [|split; [reflexivity|]].
  - unfold table_lines, cell_width.
    repeat constructor;
      rewrite !length_append, ?length_ljust, ?length_repeat_char;
      cbn [String.length]; lia.
  - intros Ht Hd.
    assert (Hc : all_chars not_lf (answer_cell answer) = true).
    { unfold answer_cell. cbv zeta.
      destruct (220 <? String.length (replace nl " " (strip answer)))%nat.
      - rewrite all_chars_app, all_chars_take by apply replace_lf_no_lf.
        reflexivity.
      - apply replace_lf_no_lf. }
    unfold table_lines.
    repeat constructor;
      rewrite !all_chars_app, ?all_chars_ljust, ?all_chars_repeat_char;
      auto.
Qed.

(** X6: the answer shown in the table has no line feed and at most 220
    characters: it is the stripped answer with its line feeds turned into
    spaces, cut after 217 characters and closed by an ellipsis when longer
    than 220. *)
Theorem ascii_table_answer_cell (now : Clock) (answer : string) :
  exists (cell : string) (w : nat),
    _ascii_table now answer = join_lines (table_lines now cell w)
    /\ (String.length cell <= 220)%nat
    /\ all_chars not_lf cell = true
    /\ ((String.length (replace nl " " (strip answer)) <= 220)%nat ->
        cell = replace nl " " (strip answer))
    /\ ((220 < String.length (replace nl " " (strip answer)))%nat ->
        cell = take 217 (replace nl " " (strip answer)) ++ "..."
        /\ String.length cell = 220%nat).
Proof.
  exists (answer_cell answer).
  eexists. split; [apply ascii_table_lines|].
  unfold answer_cell. cbv zeta.
  destruct (Nat.ltb_spec 220 (String.length (replace nl " " (strip answer)))) as [G|G].
  - split; [rewrite length_append; cbn [String.length];
            pose proof (length_take_le 217 (replace nl " " (strip answer))); lia|].
    split; [rewrite all_chars_app, all_chars_take by apply replace_lf_no_lf;
            reflexivity|].
    split; [lia|]. intros _. split; [reflexivity|].
    rewrite length_append, length_take by lia. reflexivity.
  - split; [exact G|]. split; [apply replace_lf_no_lf|].
    split; [reflexivity|lia].
Qed.

(** ** The events of each rule *)

Lemma within_bind {A B : Type} (allowed : forall X, Event X -> bool)
    (p : Prog A) (f : A -> Prog B) :
  within allowed p -> (forall a, within allowed (f a)) ->
  within allowed (bind p f).
Proof.
  induction p as [a|e|X ev k IH]; cbn [within bind]; intros Hp Hf; auto.
  destruct Hp as [Ha Hk]. split; auto.
Qed.

Lemma within_catch {A : Type} (allowed : forall X, Event X -> bool)
    (p : Prog A) (h : Exn -> Prog A) :
  within allowed p -> (forall e, within allowed (h e)) ->
  within allowed (catch p h).
Proof.
  induction p as [a|e|X ev k IH]; cbn [within catch]; intros Hp Hh; auto.
  destruct Hp as [Ha Hk]. split; auto.
Qed.

Lemma within_trigger {X : Type} (allowed : forall X, Event X -> bool)
    (ev : Event X) :
  allowed _ ev = true -> within allowed (trigger ev).
Proof. cbn. auto. Qed.

Lemma within_attempt {X : Type} (allowed : forall X, Event X -> bool)
    (ev : Event (result X)) :
  allowed _ ev = true -> within allowed (attempt ev).
Proof. intros H. cbn. split; [exact H|]. intros [x|e]; exact I. Qed.

Lemma within_weaken {A : Type} (a1 a2 : forall X, Event X -> bool) (p : Prog A) :
  (forall X (ev : Event X), a1 X ev = true -> a2 X ev = true) ->
  within a1 p -> within a2 p.
Proof.
  intros W. induction p as [a|e|X ev k IH]; cbn [within]; auto.
  intros [Ha Hk]. split; auto.
Qed.

Lemma within_runs {A : Type} (allowed : forall X, Event X -> bool)
    (p : Prog A) (tr : list Obs) (out : result A) :
  within allowed p -> runs p tr out ->
  Forall (fun o => observed_in allowed o = true) tr.
Proof.
  revert tr. induction p as [a|e|X ev k IH]; cbn [within runs]; intros tr Hp Hr.
  - destruct Hr as [-> _]. constructor.
  - destruct Hr as [-> _]. constructor.
  - destruct Hp as [Ha Hk]. destruct Hr as (x & tr' & -> & Hr).
    constructor; [exact Ha|]. eapply IH; eauto.
Qed.

Ltac within_step :=
  match goal with
  | |- True => exact I
  | |- forall _, _ => intro
  | |- within _ (Ret _) => exact I
  | |- within _ (Fail _) => exact I
  | |- within _ (trigger _) => apply within_trigger; reflexivity
  | |- within _ (attempt _) => apply within_attempt; reflexivity
  | |- within _ (catch _ _) => apply within_catch
  | |- within _ (bind _ _) => apply within_bind
  | |- within _ (if ?c then _ else _) => destruct c
  | |- within _ (match ?x with _ => _ end) => destruct x
  end.

Ltac within_tac := repeat within_step.

Lemma within_speak_and_print (cfg : Config) (text : string) :
  within dialogue_event (speak_and_print cfg text).
Proof. unfold speak_and_print, _sa_play_wav_bytes, _toast, _tts_local_pyttsx3. within_tac. Qed.

Lemma within_get_user_selection (cfg : Config) (max_index : Z) :
  within dialogue_event (get_user_selection_via_voice_or_input cfg max_index).
Proof.
  unfold get_user_selection_via_voice_or_input, transcribe.
  apply within_bind; [apply within_speak_and_print|].
  cbn [USE_WHISPER_STT]. within_tac.
Qed.

Lemma dialogue_in_file_search (X : Type) (ev : Event X) :
  dialogue_event X ev = true -> alphabet FileSearch X ev = true.
Proof. destruct ev; cbn; auto. Qed.

Lemma within_file_search (cfg : Config) (q : string) :
  within (alphabet FileSearch) (file_search cfg q).
Proof.
  unfold file_search. cbv zeta.
  destruct (is_empty (search_terms_of q) || _); [exact I|].
  apply within_bind; [unfold search_files; within_tac|].
  intros matches. unfold after_search.
  destruct matches as [|m [|m' ms]].
  - exact I.
  - unfold open_file. within_tac.
  - apply within_bind; [within_tac|]. intros _.
    apply within_bind.
    + eapply within_weaken; [apply dialogue_in_file_search|].
      apply within_get_user_selection.
    + intros sel. unfold after_selection, open_file. within_tac.
Qed.

Lemma percent_ok_clamp (n : Z) : percent_ok (Z.max 0 (Z.min 100 n)) = true.
Proof. unfold percent_ok. apply andb_true_iff. split; apply Z.leb_le; lia. Qed.

(** Every event of a branch belongs to the rule of the branch. *)
Lemma within_rule_body (cfg : Config) (r : Rule) (q : string) :
  within (alphabet r) (rule_body cfg r q).
Proof.
  destruct r; cbn [rule_body];
    try (unfold wikipedia_lookup, play_on_youtube, tell_joke, weather_report,
         fetch_weather_from_google, screenshot, take_screenshot,
         is_connected, fetch_gemini_response; now within_tac).
  - (* web search *)
    cbv zeta. apply within_bind; [|within_tac].
    apply within_trigger. cbn [alphabet]. apply startswith_self.
  - unfold control_volume. cbn [String.eqb Ascii.eqb Bool.eqb]. within_tac.
  - unfold control_volume. cbn [String.eqb Ascii.eqb Bool.eqb]. within_tac.
  - unfold control_volume. cbn [String.eqb Ascii.eqb Bool.eqb]. within_tac.
  - unfold control_volume. cbn [String.eqb Ascii.eqb Bool.eqb]. within_tac.
  - (* absolute volume *)
    destruct (search_abs_volume q); [|exact I].
    unfold volume_to. destruct (py_int s); [|exact I].
    unfold set_volume_absolute. apply within_bind; [within_tac|].
    intros volume. destruct (negb volume); [exact I|].
    apply within_catch; [|within_tac]. cbv zeta.
    apply within_bind; [|within_tac].
    apply within_attempt. apply percent_ok_clamp.
  - (* brightness up *)
    unfold brightness_up, set_brightness.
    destruct (sbc cfg); [|exact I].
    apply within_catch; [|within_tac].
    apply within_bind; [within_tac|]. intros current. cbv zeta.
    apply within_bind; [|within_tac].
    apply within_catch; [|within_tac].
    apply within_bind; [|within_tac].
    apply within_attempt. apply percent_ok_clamp.
  - (* brightness down *)
    unfold brightness_down, set_brightness.
    destruct (sbc cfg); [|exact I].
    apply within_catch; [|within_tac].
    apply within_bind; [within_tac|]. intros current. cbv zeta.
    apply within_bind; [|within_tac].
    apply within_catch; [|within_tac].
    apply within_bind; [|within_tac].
    apply within_attempt. apply percent_ok_clamp.
  - apply within_file_search.
Qed.

Lemma process_command_events (cfg : Config) (q : string)
    (tr : list Obs) (out : result string) :
  runs (process_command cfg q) tr out ->
  Forall (fun o => observed_in (alphabet (route (strip (lower q)))) o = true) tr.
Proof.
  rewrite process_command_table. apply within_runs, within_rule_body.
Qed.

(** X7: whatever the command, [process_command] performs only events of
    the rule it selects: nothing for a greeting, the endpoint volume for a
    volume rule, one thread for a power rule, the file system, the console,
    the speaker, the microphone and the keyboard for a file search only,
    Gemini for the fallback only. *)
Theorem process_command_rule_events (cfg : Config) (q : string)
    (tr : list Obs) (out : result string) :
  runs (process_command cfg q) tr out ->
  Forall (fun o => observed_in (alphabet (route (strip (lower q)))) o = true) tr.
Proof. apply process_command_events. Qed.

Lemma process_command_rule_events_witness :
  Forall (fun o => observed_in (alphabet (route (strip (lower "What TIME is it")))) o = true)
    [Observed Now noon].
Proof.
  apply (process_command_rule_events cfg0 "What TIME is it" _
           (Ok "The time is 12:00:00.")).
  apply (exec_is_run blank_world _ tt tt). vm_compute. reflexivity.
Defined.

Lemma route_matches (q : string) : rule_matches (route q) q = true.
Proof. apply route_selected. Qed.

Lemma event_of_rule (cfg : Config) (q : string) (tr : list Obs)
    (out : result string) (o : Obs) :
  runs (process_command cfg q) tr out -> In o tr ->
  observed_in (alphabet (route (strip (lower q)))) o = true.
Proof.
  intros H I. apply process_command_events in H.
  rewrite Forall_forall in H. now apply H.
Qed.

(** X8: a power action is started only by a command whose lower-cased text
    has the word of that action (shutdown, restart, sleep); the thread is
    then the only event of the turn and the answer is returned without
    waiting for it. *)
Theorem power_only_on_request (cfg : Config) (q : string) (tr : list Obs)
    (out : result string) (o : Obs) (t : PowerTarget) :
  runs (process_command cfg q) tr out ->
  In o tr -> started_thread o = Some t ->
  contains (power_keyword t) (strip (lower q)) = true
  /\ tr = [Observed (StartThread t) tt]
  /\ out = Ok (power_message t).
Proof.
  intros H I S. pose proof (event_of_rule cfg q tr out o H I) as A.
  pose proof (route_matches (strip (lower q))) as M.
  rewrite process_command_table in H.
  destruct o as [X ev x]. destruct ev; try discriminate S.
  cbn in S. injection S as ->.
  destruct (route (strip (lower q))); destruct t; try discriminate A;
    (split; [exact M|]);
    cbn in H; destruct H as ([] & tr' & -> & -> & ->); auto.
Qed.

Lemma power_only_on_request_witness :
  contains (power_keyword system_restart) (strip (lower "Please RESTART now")) = true
  /\ [Observed (StartThread system_restart) tt] = [Observed (StartThread system_restart) tt]
  /\ Ok "Restarting." = Ok (power_message system_restart).
Proof.
  apply (power_only_on_request cfg0 "Please RESTART now"
           [Observed (StartThread system_restart) tt] (Ok "Restarting.")
           (Observed (StartThread system_restart) tt) system_restart).
  - apply (exec_is_run blank_world _ tt tt). vm_compute. reflexivity.
  - left. reflexivity.
  - reflexivity.
Defined.

(** X9: the sound is muted only by a command with "mute" and without
    "unmute" in its lower-cased text, and unmuted only by a command with
    "unmute" in it. *)
Theorem mute_only_on_request (cfg : Config) (q : string) (tr : list Obs)
    (out : result string) (o : Obs) (on : bool) :
  runs (process_command cfg q) tr out ->
  In o tr -> mute_set o = Some on ->
  if on
  then route (strip (lower q)) = Mute
       /\ contains "mute" (strip (lower q)) = true
       /\ contains "unmute" (strip (lower q)) = false
  else route (strip (lower q)) = Unmute
       /\ contains "unmute" (strip (lower q)) = true.
Proof.
  intros H I S. pose proof (event_of_rule cfg q tr out o H I) as A.
  pose proof (route_matches (strip (lower q))) as M.
  destruct o as [X ev x]. destruct ev; try discriminate S.
  cbn in S. injection S as ->.
  destruct (route (strip (lower q))); destruct on; try discriminate A.
  - cbn [rule_matches] in M. apply andb_true_iff in M as [M1 M2].
    apply negb_true_iff in M2. auto.
  - auto.
Qed.

Lemma mute_only_on_request_witness :
  route (strip (lower "mute the sound")) = Mute
  /\ contains "mute" (strip (lower "mute the sound")) = true
  /\ contains "unmute" (strip (lower "mute the sound")) = false.
Proof.
  apply (mute_only_on_request cfg0 "mute the sound"
           [Observed GetEndpointVolume true; Observed (SetMute true) (Ok tt)]
           (Ok "Volume mute.") (Observed (SetMute true) (Ok tt)) true).
  - cbn. repeat first [reflexivity | eexists | split].
  - right. left. reflexivity.
  - reflexivity.
Defined.

(** X10: whatever the command, a percentage that [process_command] writes
    (the master volume of "set volume N" through [set_volume_absolute], the
    screen brightness through [set_brightness]) is from 0 to 100.  The
    steps of "volume up" and "volume down" write no percentage and are
    not covered. *)
Theorem percent_written_in_range (cfg : Config) (q : string) (tr : list Obs)
    (out : result string) (o : Obs) (level : Z) :
  runs (process_command cfg q) tr out ->
  In o tr -> percent_written o = Some level ->
  0 <= level <= 100.
Proof.
  intros H I S. pose proof (event_of_rule cfg q tr out o H I) as A.
  destruct o as [X ev x]. destruct ev; try discriminate S;
    cbn in S; injection S as ->;
    destruct (route (strip (lower q))); try discriminate A;
    cbn in A; unfold percent_ok in A; apply andb_true_iff in A; lia.
Qed.

Lemma percent_written_in_range_witness : 0 <= 100 <= 100.
Proof.
  apply (percent_written_in_range cfg0 "set volume 250"
           [Observed GetEndpointVolume true; Observed (SetMasterVolume 100) (Ok tt)]
           (Ok "Volume set to 100%.") (Observed (SetMasterVolume 100) (Ok tt)) 100).
  - cbn. repeat first [reflexivity | eexists | split].
  - right. left. reflexivity.
  - reflexivity.
Defined.

(** X11: only a file search with a search term of two characters or more
    walks the file system, opens a file, listens for a selection or reads
    the keyboard. *)
Theorem file_events_only_in_file_search (cfg : Config) (q : string)
    (tr : list Obs) (out : result string) (o : Obs) :
  runs (process_command cfg q) tr out ->
  In o tr ->
  is_walk o || is_os_open o || is_listen o || is_input o = true ->
  route (strip (lower q)) = FileSearch
  /\ (2 <= String.length (search_terms_of (strip (lower q))))%nat.
Proof.
  intros H I S. pose proof (event_of_rule cfg q tr out o H I) as A.
  assert (R : route (strip (lower q)) = FileSearch).
  { destruct o as [X ev x]. destruct ev; try discriminate S;
      destruct (route (strip (lower q))); try discriminate A; reflexivity. }
  split; [exact R|].
  destruct (Nat.ltb_spec (String.length (search_terms_of (strip (lower q)))) 2)
    as [L|L]; [|exact L].
  exfalso. rewrite (process_command_file_search cfg q R) in H.
  unfold file_search in H. cbv zeta in H.
  apply Nat.ltb_lt in L. rewrite L, orb_true_r in H.
  cbn in H. destruct H as [-> _]. exact I.
Qed.

Lemma file_events_only_in_file_search_witness :
  route (strip (lower "find report")) = FileSearch
  /\ (2 <= String.length (search_terms_of (strip (lower "find report"))))%nat.
Proof.
  apply (file_events_only_in_file_search cfg0 "find report"
           [Observed ExpandUserHome "/home/leo"; Observed (Walk "/home/leo") []]
           (Ok "No files found matching 'report'.")
           (Observed (Walk "/home/leo") [])).
  - apply (exec_is_run blank_world _ tt tt). vm_compute. reflexivity.
  - right. left. reflexivity.
  - reflexivity.
Defined.

(** ** Brightness *)

(** X12: [brightness_up] and [brightness_down] read the level and write it
    ten higher, not above 100, or ten lower, not below 0; they answer that
    the control failed when the brightness module is missing or the reading
    raised, and that the brightness changed in every other case, also when
    the writing raised. *)
Theorem brightness_step (cfg : Config) (tr : list Obs) (out : result string) :
  (runs (brightness_up cfg) tr out ->
   (out = Ok "Brightness control failed."
    /\ (sbc cfg = false /\ tr = []
        \/ exists e, tr = [Observed SbcGetBrightness (Raised e)]))
   \/ (out = Ok "Brightness increased."
       /\ exists current r,
           tr = [Observed SbcGetBrightness (Ok current);
                 Observed (SbcSetBrightness (Z.max 0 (Z.min 100 (Z.min (current + 10) 100)))) r]))
  /\ (runs (brightness_down cfg) tr out ->
      (out = Ok "Brightness control failed."
       /\ (sbc cfg = false /\ tr = []
           \/ exists e, tr = [Observed SbcGetBrightness (Raised e)]))
      \/ (out = Ok "Brightness decreased."
          /\ exists current r,
              tr = [Observed SbcGetBrightness (Ok current);
                    Observed (SbcSetBrightness (Z.max 0 (Z.min 100 (Z.max (current - 10) 0)))) r])).
Proof.
  split; unfold brightness_up, brightness_down, set_brightness;
    destruct (sbc cfg) eqn:B; intros H; run_inv H;
    try (left; split; [reflexivity|]; first [left; now split | right; eauto]);
    right; (split; [reflexivity|]); eauto.
Qed.

Lemma brightness_step_witness :
  (Ok "Brightness control failed." = Ok "Brightness control failed."
   /\ (sbc cfg0 = false /\ @nil Obs = []
       \/ exists e, [] = [Observed SbcGetBrightness (Raised e)]))
  \/ (Ok "Brightness control failed." = Ok "Brightness increased."
      /\ exists current r,
          [] = [Observed SbcGetBrightness (Ok current);
                Observed (SbcSetBrightness (Z.max 0 (Z.min 100 (Z.min (current + 10) 100)))) r]).
Proof.
  apply (proj1 (brightness_step cfg0 [] (Ok "Brightness control failed."))).
  cbn. auto.
Defined.

(** ** The output path *)




(** ** The loop and its follow-up capture *)

Lemma returns_handle_query (cfg : Config) (query : string) :
  returns (handle_query cfg query).
Proof.
  unfold handle_query, emit.
  apply returns_bind; [apply process_command_returns|]. intros response.
  apply returns_bind; [apply returns_trigger|]. intros _.
  apply returns_bind; [apply returns_trigger|]. intros _.
  apply returns_speak_and_print.
Qed.





(** X14: when the wake word comes alone, the loop says "Yes?" and makes one
    more capture, of six seconds at most for the start and eight for the
    phrase; if the capture raises, the exception goes to the loop; if its
    transcription is blank, nothing more happens; otherwise the
    lower-cased, stripped transcription is the query handled. *)
Theorem follow_up_capture (cfg : Config) (tr : list Obs) (out : result unit) :
  runs (on_wake cfg "") tr out ->
  exists tr1 r tr2,
    runs (speak_and_print cfg "Yes?") tr1 (Ok tt)
    /\ tr = (tr1 ++ Observed (Listen (Some 6) 8) r :: tr2)%list
    /\ match r with
       | Raised e => tr2 = [] /\ out = Raised e
       | Ok audio =>
           exists raw tr3,
             tr2 = Observed (TranscribeGoogle audio) raw :: tr3
             /\ if is_empty (strip (lower raw))
                then tr3 = [] /\ out = Ok tt
                else runs (handle_query cfg (strip (lower raw))) tr3 out
       end.
Proof.
  unfold on_wake. cbn [is_empty]. intros H.
  apply runs_bind in H.
  destruct H as [(tra & query & trb & H1 & H2 & ->)|(e & H1 & ->)];
    apply runs_bind in H1;
    destruct H1 as [(tr1 & [] & tr2 & S & H1 & ->)|(e' & S & E)];
    try (apply runs_returns in S as [a Sa];
         [discriminate|apply returns_speak_and_print]).
  - unfold transcribe in H1.
    cbn [USE_WHISPER_STT runs bind trigger attempt] in H1.
    destruct H1 as (r & tr' & -> & H1). destruct r as [audio|e'].
    + cbn [runs bind] in H1. destruct H1 as (raw & tr3 & -> & -> & Q).
      assert (Q' : query = strip (lower raw)) by congruence. subst query.
      exists tr1, (Ok audio). eexists. split; [exact S|].
      split; [rewrite <- app_assoc; reflexivity|].
      exists raw. eexists. split; [reflexivity|].
      destruct (is_empty (strip (lower raw))) eqn:E; cbn [negb] in H2.
      * cbn in H2. destruct H2 as [-> ->]. auto.
      * exact H2.
    + cbn [runs bind] in H1. destruct H1 as [_ Q]. discriminate Q.
  - unfold transcribe in H1.
    cbn [USE_WHISPER_STT runs bind trigger attempt] in H1.
    destruct H1 as (r & tr' & -> & H1). destruct r as [audio|e'].
    + cbn [runs bind] in H1. destruct H1 as (raw & tr3 & -> & -> & Q).
      discriminate Q.
    + cbn [runs bind] in H1. destruct H1 as [-> Q].
      exists tr1, (Raised e'), []. split; [exact S|]. split; [reflexivity|].
      split; [reflexivity|]. congruence.
Qed.

Lemma follow_up_capture_witness :
  exists tr1 r tr2,
    runs (speak_and_print cfg0 "Yes?") tr1 (Ok tt)
    /\ fst (fst (exec blank_world (on_wake cfg0 "") tt))
       = (tr1 ++ Observed (Listen (Some 6) 8) r :: tr2)%list
    /\ match r with
       | Raised e =>
           tr2 = [] /\ snd (fst (exec blank_world (on_wake cfg0 "") tt)) = Raised e
       | Ok audio =>
           exists raw tr3,
             tr2 = Observed (TranscribeGoogle audio) raw :: tr3
             /\ if is_empty (strip (lower raw))
                then tr3 = []
                     /\ snd (fst (exec blank_world (on_wake cfg0 "") tt)) = Ok tt
                else runs (handle_query cfg0 (strip (lower raw))) tr3
                       (snd (fst (exec blank_world (on_wake cfg0 "") tt)))
       end.
Proof.
  apply (follow_up_capture cfg0). apply exec_runs.
Defined.

(** ** Gemini, the weather page, one recognition *)

Lemma strip_idem (s : string) : strip (strip s) = strip s.
Proof. unfold strip. apply strip_by_idem. Qed.

(** X15: [fetch_gemini_response] never raises.  Without a client it
    answers without calling Gemini; with one it makes one call, and what
    it returns from an answer of Gemini has no white space around it,
    "(no response)" standing for a missing or empty text. *)
Theorem gemini_response (cfg : Config) (prompt : string) (tr : list Obs)
    (out : result string) :
  runs (fetch_gemini_response cfg prompt) tr out ->
  exists response,
    out = Ok response
    /\ ((gemini_client cfg = false /\ tr = [])
        \/ (gemini_client cfg = true
            /\ exists r,
                tr = [Observed (GeminiSend prompt) r]
                /\ match r with
                   | Raised e =>
                       response = "Gemini AI error or no response: " ++ exn_str e
                   | Ok text =>
                       strip response = response
                       /\ (text = None \/ text = Some "" ->
                           response = "(no response)")
                   end)).
Proof.
  unfold fetch_gemini_response. destruct (gemini_client cfg); cbn [negb].
  - cbn [runs bind catch trigger attempt].
    intros (r & tr' & -> & H). destruct r as [text|e]; cbn in H;
      destruct H as [-> ->]; eexists; (split; [reflexivity|]);
      right; (split; [reflexivity|]).
    + exists (Ok text). split; [reflexivity|]. split; [apply strip_idem|].
      intros [->| ->]; reflexivity.
    + exists (Raised e). auto.
  - cbn. intros [-> ->]. eexists. split; [reflexivity|]. now left.
Qed.

Lemma gemini_response_witness :
  exists response,
    Ok "" = Ok response
    /\ ((gemini_client cfg0 = false /\ [Observed (GeminiSend "hm") (Ok (Some " "))] = [])
        \/ (gemini_client cfg0 = true
            /\ exists r,
                [Observed (GeminiSend "hm") (Ok (Some " "))]
                = [Observed (GeminiSend "hm") r]
                /\ match r with
                   | Raised e =>
                       response = "Gemini AI error or no response: " ++ exn_str e
                   | Ok text =>
                       strip response = response
                       /\ (text = None \/ text = Some "" ->
                           response = "(no response)")
                   end)).
Proof.
  apply (gemini_response cfg0 "hm").
  apply (exec_is_run blank_world _ tt tt). vm_compute. reflexivity.
Defined.

Lemma startswith_char (a c : ascii) (r : string) :
  startswith (String a "") (String c r) = Ascii.eqb a c.
Proof.
  unfold startswith. cbn [prefix].
  replace (prefix "" r) with true by now destruct r.
  destruct (ascii_dec a c) as [->|N].
  - now rewrite Ascii.eqb_refl.
  - symmetry. now apply Ascii.eqb_neq.
Qed.

(** Replacing a character leaves none of it, when the replacement has none. *)
Lemma replace_char_gone (a : ascii) (new s : string) :
  all_chars (fun c => negb (Ascii.eqb a c)) new = true ->
  all_chars (fun c => negb (Ascii.eqb a c)) (replace (String a "") new s) = true.
Proof.
  intros N. unfold replace. cbn [is_empty].
  induction s as [|c r IH]; [reflexivity|].
  cbn [replace_from]. rewrite startswith_char.
  destruct (Ascii.eqb a c) eqn:E.
  - cbn [String.length Nat.sub]. now rewrite all_chars_app, N, IH.
  - cbn [all_chars]. now rewrite E, IH.
Qed.

(** X16: [fetch_weather_from_google] never raises.  For a blank city it
    asks for a city without any request; otherwise it makes one request,
    to an address without a space: the spaces of the city are turned into
    plus signs. *)
Theorem weather_request (city : string) (tr : list Obs) (out : result string) :
  runs (fetch_weather_from_google city) tr out ->
  exists response,
    out = Ok response
    /\ ((is_empty (strip city) = true /\ tr = []
         /\ response = "Please specify a city.")
        \/ (is_empty (strip city) = false
            /\ exists url r,
                tr = [Observed (GoogleWeather url) r]
                /\ url = "https://www.google.com/search?q=weather+"
                         ++ replace " " "+" city
                /\ all_chars not_space url = true)).
Proof.
  unfold fetch_weather_from_google. destruct (is_empty (strip city)).
  - cbn. intros [-> ->]. eexists. split; [reflexivity|]. left. auto.
  - cbn [runs bind catch trigger attempt].
    intros (r & tr' & -> & H).
    assert (U : all_chars not_space
                  ("https://www.google.com/search?q=weather+" ++ replace " " "+" city)
                = true).
    { rewrite all_chars_app. apply andb_true_iff. split; [reflexivity|].
      apply (replace_char_gone " " "+" city). reflexivity. }
    destruct r as [[w|]|e]; cbn in H; destruct H as [-> ->];
      eexists; (split; [reflexivity|]); right; (split; [reflexivity|]);
      eexists; eexists; (split; [reflexivity|]); auto.
Qed.

Lemma weather_request_witness :
  exists response,
    Ok "Couldn't fetch weather details right now." = Ok response
    /\ ((is_empty (strip "new york") = true
         /\ [Observed (GoogleWeather "https://www.google.com/search?q=weather+new+york")
               (Ok None)] = []
         /\ response = "Please specify a city.")
        \/ (is_empty (strip "new york") = false
            /\ exists url r,
                [Observed (GoogleWeather "https://www.google.com/search?q=weather+new+york")
                   (Ok None)] = [Observed (GoogleWeather url) r]
                /\ url = "https://www.google.com/search?q=weather+"
                         ++ replace " " "+" "new york"
                /\ all_chars not_space url = true)).
Proof.
  apply (weather_request "new york").
  apply (exec_is_run blank_world _ tt tt). vm_compute. reflexivity.
Defined.

(** X17: what [recognize_once] returns is lower-cased and stripped already,
    and it comes from one capture with the limits asked for; an exception
    of the microphone is not caught. *)
Theorem recognize_once_normalized (timeout : option Z) (phrase_time_limit : Z)
    (tr : list Obs) (text : string) :
  runs (recognize_once timeout phrase_time_limit) tr (Ok text) ->
  strip (lower text) = text
  /\ exists audio raw,
      tr = [Observed AdjustForAmbientNoise (Ok tt);
            Observed (Listen timeout phrase_time_limit) (Ok audio);
            Observed (TranscribeGoogle audio) raw]
      /\ text = strip (lower raw).
Proof.
  unfold recognize_once, transcribe.
  cbn [USE_WHISPER_STT runs bind trigger attempt].
  intros (r1 & tr1 & -> & H). destruct r1 as [[]|e1]; cbn [runs bind] in H;
    [|destruct H as [_ Q]; discriminate Q].
  destruct H as (r2 & tr2 & -> & H). destruct r2 as [audio|e2];
    cbn [runs bind] in H; [|destruct H as [_ Q]; discriminate Q].
  destruct H as (raw & tr3 & -> & -> & Q).
  assert (E : text = strip (lower raw)) by congruence. subst text.
  split; [apply normalize_idem|]. exists audio, raw. auto.
Qed.

Lemma recognize_once_normalized_witness :
  strip (lower "volume up") = "volume up"
  /\ exists audio raw,
      [Observed AdjustForAmbientNoise (Ok tt);
       Observed (Listen None 6) (Ok (audio_data [1; 2]));
       Observed (TranscribeGoogle (audio_data [1; 2])) " Volume UP "]
      = [Observed AdjustForAmbientNoise (Ok tt);
         Observed (Listen None 6) (Ok audio);
         Observed (TranscribeGoogle audio) raw]
      /\ "volume up" = strip (lower raw).
Proof.
  apply (recognize_once_normalized None 6).
  cbn. repeat first [reflexivity | eexists | split].
Defined.

(** ** Voice first, then the keyboard *)

Ltac count_and_collect :=
  cbn [count filter is_listen is_input is_os_open is_voice List.length
       collect heard typed In].

(** X18: the selection comes from the voice when the number heard is in
    [0, N], and the keyboard is then not read; otherwise one line is read
    from the keyboard, and the selection is the integer typed when it is
    in [0, N], and -1 in every other case (a line that is no integer, an
    integer out of range, no line at all). *)
Theorem selection_voice_first (cfg : Config) (max_index : Z) (tr : list Obs)
    (out : result Z) :
  runs (get_user_selection_via_voice_or_input cfg max_index) tr out ->
  exists sel,
    out = Ok sel
    /\ ((count is_input tr = O
         /\ exists said,
             collect heard tr = [said]
             /\ sel = parse_spoken_number said /\ 0 <= sel <= max_index)
        \/ (count is_input tr = 1%nat
            /\ (forall said, In said (collect heard tr) ->
                             in_range (parse_spoken_number said) max_index = false)
            /\ sel = match collect typed tr with
                     | [line] =>
                         match py_int (strip line) with
                         | Some n => if in_range n max_index then n else -1
                         | None => -1
                         end
                     | _ => -1
                     end)).
Proof.
  unfold get_user_selection_via_voice_or_input, speak_and_print,
    _sa_play_wav_bytes, _toast,
    _tts_local_pyttsx3, transcribe.
  intros H. run_inv H;
    (eexists; split; [reflexivity|]);
    first
      [ left; split; [reflexivity|];
        eexists; split; [reflexivity|]; split; [reflexivity|];
        apply in_range_spec; assumption
      | right; split; [reflexivity|]; split;
        [ count_and_collect; intros said I;
          repeat match goal with
                 | I : _ \/ _ |- _ => destruct I as [I|I]
                 | I : False |- _ => destruct I
                 | I : _ = said |- _ => subst said
                 end; assumption
        | count_and_collect;
          repeat match goal with
                 | E : py_int _ = _ |- _ => rewrite E
                 | E : in_range _ _ = _ |- _ => rewrite E
                 end; reflexivity ] ].
Qed.

Lemma selection_voice_first_witness :
  exists sel,
    snd (fst (exec blank_world (get_user_selection_via_voice_or_input cfg0 3) tt))
    = Ok sel
    /\ sel = 0.
Proof.
  destruct (selection_voice_first cfg0 3 _ _
              (exec_runs blank_world
                 (get_user_selection_via_voice_or_input cfg0 3) tt))
    as (sel & E & [(C & _)|(_ & _ & S)]).
  - vm_compute in C. discriminate C.
  - exists sel. split; [exact E|]. vm_compute in S. exact S.
Defined.

(** ** The list shown and the file opened *)

Lemma nth_error_numbered (paths : list string) :
  forall (idx : Z) (i : nat) (path : string),
    nth_error paths i = Some path ->
    nth_error (numbered idx paths) i
    = Some (str_of_Z (idx + Z.of_nat i) ++ ". " ++ path).
Proof.
  induction paths as [|p paths IH]; intros idx i path; [now destruct i|].
  destruct i as [|i]; cbn [nth_error numbered].
  - intros [= ->]. now rewrite Z.add_0_r.
  - intros H. rewrite (IH (idx + 1) i path H). do 3 f_equal. lia.
Qed.

Lemma length_numbered (paths : list string) :
  forall idx, List.length (numbered idx paths) = List.length paths.
Proof. induction paths as [|p paths IH]; intros idx; cbn; auto. Qed.

Lemma lines_from_no_lf (a : string) :
  forall cur s,
    all_chars not_lf a = true ->
    lines_from cur (a ++ s) = lines_from (cur ++ a) s.
Proof.
  induction a as [|c a IH]; intros cur s H; cbn [append all_chars lines_from] in *.
  - now rewrite append_empty.
  - apply andb_true_iff in H as [Hc Ha]. rewrite Hc.
    rewrite (IH _ s Ha). now rewrite append_assoc.
Qed.

(** Joining lines that have no line feed and splitting the text again gives
    the lines back. *)
Lemma lines_of_joined (ls : list string) :
  forall l,
    Forall (fun line => all_chars not_lf line = true) (l :: ls) ->
    lines_from "" (join_lines (l :: ls) ++ nl) = (l :: ls ++ [""])%list.
Proof.
  induction ls as [|l' ls IH]; intros l F; inversion F as [|? ? Hl F']; subst.
  - cbn [join_lines app]. now rewrite (lines_from_no_lf l "" nl Hl).
  - change (join_lines (l :: l' :: ls)) with (l ++ nl ++ join_lines (l' :: ls)).
    rewrite !append_assoc. rewrite (lines_from_no_lf l "" _ Hl).
    change (lines_from ("" ++ l) (nl ++ join_lines (l' :: ls) ++ nl))
      with (l :: lines_from "" (join_lines (l' :: ls) ++ nl)).
    now rewrite (IH l' F').
Qed.

Lemma string_of_uint_no_lf (d : Decimal.uint) :
  all_chars not_lf (NilEmpty.string_of_uint d) = true.
Proof. induction d; cbn; auto. Qed.

Lemma str_of_Z_no_lf (n : Z) : all_chars not_lf (str_of_Z n) = true.
Proof.
  unfold str_of_Z, NilZero.string_of_int, NilZero.string_of_uint.
  destruct (Z.to_int n) as [d|d]; destruct d;
    try reflexivity; exact (string_of_uint_no_lf _).
Qed.

Lemma numbered_no_lf (paths : list string) :
  forall idx,
    Forall (fun path => all_chars not_lf path = true) paths ->
    Forall (fun line => all_chars not_lf line = true) (numbered idx paths).
Proof.
  induction paths as [|p paths IH]; intros idx F; cbn [numbered];
    [constructor|].
  inversion F as [|? ? Hp F']; subst. constructor; [|now apply IH].
  now rewrite !all_chars_app, str_of_Z_no_lf, Hp.
Qed.

(** X19: when no candidate path has a line feed in it, the text printed
    before the selection reads, line by line: an empty line, the title,
    one line for each candidate in the order of the search, made of its
    number, a full stop, a space and the path, and an empty line.  For a
    selection [sel] in [1, N], the file then opened is the path on the
    line of number [sel], the [sel]-th after the title. *)
Theorem listed_number_opens_listed_file (cfg : Config) (term : string)
    (matches : list string) (tr : list Obs) (out : result string) :
  (1 < List.length matches)%nat ->
  Forall (fun path => all_chars not_lf path = true) matches ->
  runs (after_search cfg term matches) tr out ->
  exists text tr1 sel tr2,
    tr = (Observed (Print text) tt :: tr1 ++ tr2)%list
    /\ text = nl ++ join_lines ("Files found:" :: numbered 1 matches) ++ nl
    /\ split_lines text
       = ("" :: "Files found:" :: numbered 1 matches ++ [""])%list
    /\ List.length (numbered 1 matches) = List.length matches
    /\ runs (get_user_selection_via_voice_or_input cfg
               (Z.of_nat (List.length matches))) tr1 (Ok sel)
    /\ runs (after_selection matches sel) tr2 out
    /\ (1 <= sel <= Z.of_nat (List.length matches) ->
        exists chosen r,
          nth_error (split_lines text) (Z.to_nat sel + 1)
          = Some (str_of_Z sel ++ ". " ++ chosen)
          /\ tr2 = [Observed (OsOpen chosen) r]).
Proof.
  intros L F H.
  apply (runs_after_search_many cfg term matches tr out L) in H
    as (tr1 & sel & tr2 & H1 & H2 & ->).
  assert (Sp : split_lines (nl ++ join_lines ("Files found:" :: numbered 1 matches)
                            ++ nl)
               = ("" :: "Files found:" :: numbered 1 matches ++ [""])%list).
  { unfold split_lines.
    change (lines_from "" (nl ++ join_lines ("Files found:" :: numbered 1 matches)
                           ++ nl))
      with ("" :: lines_from ""
                    (join_lines ("Files found:" :: numbered 1 matches) ++ nl)).
    rewrite lines_of_joined; [reflexivity|].
    constructor; [reflexivity|now apply numbered_no_lf]. }
  exists (nl ++ join_lines ("Files found:" :: numbered 1 matches) ++ nl),
    tr1, sel, tr2.
  split; [reflexivity|]. split; [reflexivity|]. split; [exact Sp|].
  split; [apply length_numbered|]. split; [exact H1|]. split; [exact H2|].
  intros I.
  destruct (runs_after_selection_valid matches sel I) as (chosen & E & R).
  destruct (R tr2 out H2) as (r & -> & _).
  exists chosen, r. split; [|reflexivity].
  rewrite Sp.
  replace (Z.to_nat sel + 1)%nat with (S (S (Z.to_nat (sel - 1)))) by lia.
  cbn [nth_error].
  rewrite nth_error_app1
    by (rewrite length_numbered; apply nth_error_Some; congruence).
  rewrite (nth_error_numbered matches 1 _ chosen E). do 3 f_equal. lia.
Qed.

Lemma listed_number_opens_listed_file_witness :
  (exists text tr1 sel tr2,
      fst (fst (exec (typing_world "2")
                  (after_search cfg0 "txt" ["a.txt"; "b.txt"; "c.txt"]) tt))
      = (Observed (Print text) tt :: tr1 ++ tr2)%list
      /\ split_lines text
         = [""; "Files found:"; "1. a.txt"; "2. b.txt"; "3. c.txt"; ""]
      /\ (1 <= sel <= 3 ->
          exists chosen r,
            nth_error (split_lines text) (Z.to_nat sel + 1)
            = Some (str_of_Z sel ++ ". " ++ chosen)
            /\ tr2 = [Observed (OsOpen chosen) r]))
  /\ snd (fst (exec (typing_world "2")
                 (after_search cfg0 "txt" ["a.txt"; "b.txt"; "c.txt"]) tt))
     = Ok "Opened: b.txt".
Proof.
  split; [|vm_compute; reflexivity].
  destruct (listed_number_opens_listed_file cfg0 "txt" ["a.txt"; "b.txt"; "c.txt"]
              _ _ ltac:(cbn; lia)
              ltac:(repeat constructor)
              (exec_runs (typing_world "2")
                 (after_search cfg0 "txt" ["a.txt"; "b.txt"; "c.txt"]) tt))
    as (text & tr1 & sel & tr2 & E & T & S & _ & _ & _ & C).
  exists text, tr1, sel, tr2. split; [exact E|]. split; [exact S|exact C].
Defined.

(** ** Precedence in the chain *)

Lemma in_list_cases (q : string) (ws : list string) :
  in_list q ws = true -> In q ws.
Proof.
  unfold in_list. intros H. apply existsb_exists in H as (w & I & E).
  apply String.eqb_eq in E. now subst.
Qed.

Lemma exact_rules_are_short (q : string) :
  rule_matches Greeting q = true \/ rule_matches HowAreYou q = true
  \/ rule_matches Farewell q = true ->
  contains "wikipedia" q = false /\ startswith "search " q = false.
Proof.
  cbn [rule_matches]. intros [H|[H|H]]; apply in_list_cases in H; cbn [In] in H;
    repeat match goal with
           | H : _ \/ _ |- _ => destruct H as [H|H]
           | H : False |- _ => destruct H
           | H : _ = q |- _ => subst q
           end; split; reflexivity.
Qed.

(** X20: a command that mentions wikipedia is always a Wikipedia lookup,
    and a command that begins with "search " is never a file search: it is
    a Wikipedia lookup, the opening of YouTube or of Google, or a Google
    search. *)
Theorem search_precedence (q : string) :
  (contains "wikipedia" (strip (lower q)) = true ->
   route (strip (lower q)) = Wikipedia)
  /\ (startswith "search " (strip (lower q)) = true ->
      route (strip (lower q)) = Wikipedia
      \/ route (strip (lower q)) = OpenYoutube
      \/ route (strip (lower q)) = OpenGoogle
      \/ route (strip (lower q)) = WebSearch).
Proof.
  generalize (strip (lower q)) as n. intros n.
  pose proof (route_selected n) as [M B].
  pose proof (exact_rules_are_short n) as X.
  split; intros H; destruct (route n) eqn:R;
    try (exfalso;
         assert (P : rule_matches Greeting n = true
                     \/ rule_matches HowAreYou n = true
                     \/ rule_matches Farewell n = true)
           by (first [left; exact M | right; left; exact M | right; right; exact M]);
         destruct (X P) as [X1 X2]; congruence);
    try (exfalso;
         pose proof (B Wikipedia ltac:(vm_compute; lia)) as W;
         cbn [rule_matches] in W; congruence);
    try (exfalso;
         pose proof (B WebSearch ltac:(vm_compute; lia)) as W;
         cbn [rule_matches] in W; congruence);
    auto.
Qed.

Lemma search_precedence_witness :
  route (strip (lower "Search Wikipedia for file systems")) = Wikipedia.
Proof.
  apply (proj1 (search_precedence "Search Wikipedia for file systems")).
  vm_compute. reflexivity.
Defined.
